(** * Pairing keys: a shallow embedding of [pair.go]

    The Go package keeps, behind one mutex, two maps over the same set of
    [keyInfo] records: [devices] (device identifier to record) and [keys]
    (key to record).  [Generate] issues a key for a device, [GetDeviceID]
    consumes a key and gives back the device it was issued for.

    Modelling decisions.
    - The mutex makes every method body atomic, so a method is a function
      from the state before the call to the state after it.
    - The maps hold [*keyInfo]; a record is never written after it has been
      allocated, so the pointer is modelled by the record it points to.
    - A nil map and an empty map are the same for every statement of the
      two methods (lookup and [delete] on a nil map are legal in Go, and
      [Generate] allocates both maps before it writes), so both are [∅].
    - The random renderer [Dictionary.Generate] and the clock ([time.Now],
      [time.Since]) are the environment of a call.  A [World] fixes what
      the environment answers in each turn of the retry loop. *)

From Stdlib Require Import ZArith NArith String.
From stdpp Require Import base option gmap strings fin_maps.

Open Scope string_scope.

(** ** Time *)

(** [time.Time] as a clock reading in nanoseconds, [time.Duration] as the
    signed 64-bit count of nanoseconds it is in Go. *)
Definition time_Time := Z.
Definition time_Duration := Z.

Definition minDuration : time_Duration := (- 2 ^ 63)%Z.
Definition maxDuration : time_Duration := (2 ^ 63 - 1)%Z.

Definition Nanosecond : time_Duration := 1%Z.
Definition Second : time_Duration := (1000000000 * Nanosecond)%Z.
Definition Minute : time_Duration := (60 * Second)%Z.

(** [t.Sub(u)]: the difference, saturated at the ends of the 64-bit range. *)
Definition Sub (t u : time_Time) : time_Duration :=
  let d := (t - u)%Z in
  if (d <? minDuration)%Z then minDuration
  else if (maxDuration <? d)%Z then maxDuration
  else d.

(** [time.Since(t)] is [time.Now().Sub(t)]; [now] is the reading taken. *)
Definition Since (now t : time_Time) : time_Duration := Sub now t.

(** ** Data *)

(** The declaration of [Dictionary] is in another file of the package; the
    code here only takes its [len], so it is a string of letters. *)
Definition Dictionary := string.

Record keyInfo := mkKeyInfo {
  DeviceID : string;
  Key : string;
  Time : time_Time
}.

(** [Pairs] without its mutex.  [Dict] is the embedded [Dictionary] field,
    [Length] a [uint8], [MaxIter] a [uint16]. *)
Record Pairs := mkPairs {
  Dict : Dictionary;
  Length : N;
  Expire : time_Duration;
  MaxIter : N;
  devices : gmap string keyInfo;
  keys : gmap string keyInfo
}.

(** The zero value of [Pairs] a caller starts from, with the four public
    fields set as the caller likes. *)
Definition newPairs (dict : Dictionary) (len : N) (expire : time_Duration)
    (maxIter : N) : Pairs :=
  mkPairs dict len expire maxIter ∅ ∅.

(** What the environment answers in turn [i] of the retry loop of one call
    of [Generate]: the string [Dictionary.Generate] renders from the
    dictionary and length it is given, the clock reading behind
    [time.Since] and the one behind [time.Now]. *)
Record World := mkWorld {
  DictGenerate : nat → Dictionary → N → string;
  clockSince : nat → time_Time;
  clockNow : nat → time_Time
}.

(** What a call of [Generate] leaves: the state, the returned [key], and two
    observations of the run that Go does not return, the number of calls
    of the renderer and whether the loop was left through [break]. *)
Record Generated := mkGenerated {
  g_pairs : Pairs;
  g_key : string;
  g_renders : nat;
  g_break : bool
}.

(** ** Operations *)

Definition set_maps (p : Pairs) (ds ks : gmap string keyInfo) : Pairs :=
  mkPairs (Dict p) (Length p) (Expire p) (MaxIter p) ds ks.

(** [delete(p.keys, kInfo.Key); delete(p.devices, kInfo.DeviceID)] *)
Definition purge (kInfo : keyInfo) (p : Pairs) : Pairs :=
  set_maps p (delete (DeviceID kInfo) (devices p)) (delete (Key kInfo) (keys p)).

(** [p.devices[deviceID] = kInfo; p.keys[key] = kInfo] *)
Definition store (deviceID key : string) (kInfo : keyInfo) (p : Pairs) : Pairs :=
  set_maps p (<[deviceID := kInfo]> (devices p)) (<[key := kInfo]> (keys p)).

Section WithDictAlfa.

(** [DictAlfa] is a constant of the package declared in another file. *)
Variable DictAlfa : Dictionary.

(** Lines 50-61: each public field still at its zero value gets its
    default. *)
Definition defaults (p : Pairs) : Pairs :=
  mkPairs
    (if (String.length (Dict p) =? 0)%nat then DictAlfa else Dict p)
    (if (Length p =? 0)%N then 6%N else Length p)
    (if (Expire p =? 0)%Z then (Minute * 30)%Z else Expire p)
    (if (MaxIter p =? 0)%N then 1000%N else MaxIter p)
    (devices p) (keys p).

(** Lines 63-67: the record the device already has is removed. *)
Definition supersede (deviceID : string) (p : Pairs) : Pairs :=
  match devices p !! deviceID with
  | Some kInfo => purge kInfo p
  | None => p
  end.

(** Lines 69-92: the retry loop, with [left] turns still to go
    ([int(p.MaxIter) - i]).  [key] is the named result of [Generate]: the
    loop assigns it in every turn. *)
Fixpoint attempts (w : World) (deviceID : string) (left i : nat)
    (renders : nat) (key : string) (p : Pairs) : Generated :=
  match left with
  | O => mkGenerated p key renders false
  | S left' =>
      let key := DictGenerate w i (Dict p) (Length p) in
      let renders := S renders in
      let fresh p :=
        let kInfo := mkKeyInfo deviceID key (clockNow w i) in
        mkGenerated (store deviceID key kInfo p) key renders true in
      match keys p !! key with
      | Some kInfo =>
          if (Since (clockSince w i) (Time kInfo) <? Expire p)%Z
          then attempts w deviceID left' (S i) renders key p
          else fresh (purge kInfo p)
      | None => fresh p
      end
  end.

Definition Generate (p : Pairs) (deviceID : string) (w : World) : Generated :=
  let p := defaults p in
  let p := supersede deviceID p in
  attempts w deviceID (N.to_nat (MaxIter p)) 0 0 "" p.

End WithDictAlfa.

(** [GetDeviceID], with [now] the clock reading behind [time.Since]. *)
Definition GetDeviceID (p : Pairs) (key : string) (now : time_Time)
    : Pairs * string :=
  match keys p !! key with
  | Some kInfo =>
      (purge kInfo p,
       if (Since now (Time kInfo) <? Expire p)%Z then DeviceID kInfo else "")
  | None => (p, "")
  end.

(** ** Sequences of calls *)

Inductive Op :=
| OpGenerate (deviceID : string) (w : World)
| OpGetDeviceID (key : string) (now : time_Time).

Definition step (DictAlfa : Dictionary) (p : Pairs) (op : Op) : Pairs :=
  match op with
  | OpGenerate deviceID w => g_pairs (Generate DictAlfa p deviceID w)
  | OpGetDeviceID key now => fst (GetDeviceID p key now)
  end.

Fixpoint run (DictAlfa : Dictionary) (ops : list Op) (p : Pairs) : Pairs :=
  match ops with
  | [] => p
  | op :: ops => run DictAlfa ops (step DictAlfa p op)
  end.

(** Calls of [GetDeviceID] only. *)
Fixpoint redeem_all (calls : list (string * time_Time)) (p : Pairs) : Pairs :=
  match calls with
  | [] => p
  | (key, now) :: calls => redeem_all calls (fst (GetDeviceID p key now))
  end.

(** Calls of [Generate] only: the device and key of every call that
    entered a record, in the order of the calls. *)
Fixpoint issued (DictAlfa : Dictionary) (calls : list (string * World))
    (p : Pairs) : list (string * string) :=
  match calls with
  | [] => []
  | (deviceID, w) :: calls =>
      let g := Generate DictAlfa p deviceID w in
      (if g_break g then [(deviceID, g_key g)] else [])
      ++ issued DictAlfa calls (g_pairs g)
  end.

(** No call of the sequence met an expired record: the key a call entered
    was free when its loop started. *)
Fixpoint no_expiry (DictAlfa : Dictionary) (calls : list (string * World))
    (p : Pairs) : Prop :=
  match calls with
  | [] => True
  | (deviceID, w) :: calls =>
      let g := Generate DictAlfa p deviceID w in
      (g_break g = true →
       keys (supersede deviceID (defaults DictAlfa p)) !! g_key g = None) ∧
      no_expiry DictAlfa calls (g_pairs g)
  end.

(** The calls [ops], made from [p] on, leave alone the record that key [k]
    has for device [d]: none is a [GetDeviceID] of [k], none is a
    [Generate] for [d], and none is a [Generate] that enters [k]. *)
Fixpoint undisturbed (DictAlfa : Dictionary) (d k : string) (ops : list Op)
    (p : Pairs) : Prop :=
  match ops with
  | [] => True
  | op :: ops =>
      match op with
      | OpGenerate deviceID w =>
          deviceID ≠ d ∧
          (g_break (Generate DictAlfa p deviceID w) = true →
           g_key (Generate DictAlfa p deviceID w) ≠ k)
      | OpGetDeviceID key _ => key ≠ k
      end ∧
      undisturbed DictAlfa d k ops (step DictAlfa p op)
  end.

(** None of the calls [ops], made from [p] on, is a [Generate] that enters
    key [k]. *)
Fixpoint not_entered (DictAlfa : Dictionary) (k : string) (ops : list Op)
    (p : Pairs) : Prop :=
  match ops with
  | [] => True
  | op :: ops =>
      match op with
      | OpGenerate deviceID w =>
          g_break (Generate DictAlfa p deviceID w) = true →
          g_key (Generate DictAlfa p deviceID w) ≠ k
      | OpGetDeviceID _ _ => True
      end ∧
      not_entered DictAlfa k ops (step DictAlfa p op)
  end.

(** A sequence of calls of [Generate] as a sequence of calls. *)
Definition generate_ops (calls : list (string * World)) : list Op :=
  (λ c, OpGenerate c.1 c.2) <$> calls.

(** While the calls of [Generate] run, no record of the store is as old
    as [Expire]: at every clock reading a call takes for [time.Since],
    every record the call started from is younger than [Expire]. *)
Fixpoint none_expired (DictAlfa : Dictionary) (calls : list (string * World))
    (p : Pairs) : Prop :=
  match calls with
  | [] => True
  | (deviceID, w) :: calls =>
      (∀ i k r, keys p !! k = Some r →
         (Since (clockSince w i) (Time r) < Expire (defaults DictAlfa p))%Z) ∧
      none_expired DictAlfa calls (g_pairs (Generate DictAlfa p deviceID w))
  end.

(** The devices [Generate] is called for in a sequence of calls. *)
Fixpoint asked (ops : list Op) : list string :=
  match ops with
  | [] => []
  | OpGenerate deviceID _ :: ops => deviceID :: asked ops
  | OpGetDeviceID _ _ :: ops => asked ops
  end.

(** The four public settings of a [Pairs]. *)
Definition config (p : Pairs) : Dictionary * N * time_Duration * N :=
  (Dict p, Length p, Expire p, MaxIter p).

(** ** Vocabulary of the statements *)

(** The string rendered in turn [i] of the loop over state [p]. *)
Definition candidate (w : World) (p : Pairs) (i : nat) : string :=
  DictGenerate w i (Dict p) (Length p).

(** Turn [i] ends in [continue]: the candidate is a key of [p] whose record
    is younger than [Expire]. *)
Definition live (w : World) (p : Pairs) (i : nat) : bool :=
  match keys p !! candidate w p i with
  | Some kInfo => (Since (clockSince w i) (Time kInfo) <? Expire p)%Z
  | None => false
  end.

(** Lines 72-80 in a turn that does not [continue]. *)
Definition reclaim (key : string) (p : Pairs) : Pairs :=
  match keys p !! key with
  | Some kInfo => purge kInfo p
  | None => p
  end.

(** The two maps index one set of records: a record sits in [keys] under
    its own [Key] and in [devices] under its own [DeviceID], and whatever
    one map holds the other holds too. *)
Record Inv (p : Pairs) : Prop := mkInv {
  inv_keys : ∀ k r, keys p !! k = Some r →
    Key r = k ∧ devices p !! DeviceID r = Some r;
  inv_devices : ∀ d r, devices p !! d = Some r →
    DeviceID r = d ∧ keys p !! Key r = Some r;
  inv_size : size (devices p) = size (keys p)
}.

(** How the retry loop can end, started over [p] at turn [i] with [left]
    turns to go, [n] renderings behind it and [key] in the result. *)
Inductive loop_end (w : World) (deviceID : string) (p : Pairs)
    (left i n : nat) (key : string) : Generated → Prop :=
| loop_exhausted :
    (∀ j, (j < left)%nat → live w p (i + j) = true) →
    loop_end w deviceID p left i n key
      (mkGenerated p
         (match left with O => key | S l => candidate w p (i + l) end)
         (n + left) false)
| loop_break j :
    (j < left)%nat →
    (∀ j', (j' < j)%nat → live w p (i + j') = true) →
    live w p (i + j) = false →
    let k := candidate w p (i + j) in
    loop_end w deviceID p left i n key
      (mkGenerated
         (store deviceID k (mkKeyInfo deviceID k (clockNow w (i + j)))
            (reclaim k p))
         k (n + S j) true).

(** ** A scenario: a renderer stuck on one string *)

Module Scenario.

Definition alphabet : Dictionary := "ABCDEFGHIJKLMNOPQRSTUVWXYZ".

(** Every rendering is ["AAAAAA"], every clock reading is [now]. *)
Definition stuck (now : time_Time) : World :=
  mkWorld (fun _ _ _ => "AAAAAA") (fun _ => now) (fun _ => now).

(** A [Pairs] with nothing set. *)
Definition zero : Pairs := newPairs "" 0%N 0%Z 0%N.

Definition first := Generate alphabet zero "d1" (stuck 0%Z).
Definition second := Generate alphabet (g_pairs first) "d2" (stuck 1%Z).
Definition again := Generate alphabet (g_pairs first) "d1" (stuck 1%Z).

(** A renderer that gives ["BBBBBB"], and the call for ["d1"] under it. *)
Definition other (now : time_Time) : World :=
  mkWorld (fun _ _ _ => "BBBBBB") (fun _ => now) (fun _ => now).
Definition renewed := Generate alphabet (g_pairs first) "d1" (other 1%Z).


(** Thirty minutes after the first call, in nanoseconds. *)
Definition late : time_Time := 1800000000000%Z.


(** ["d2"] asks thirty minutes after ["d1"], with the renderer still stuck. *)
Definition reclaimed := Generate alphabet (g_pairs first) "d2" (stuck late).

(** ["d2"] asks a nanosecond after ["d1"] and is rendered ["BBBBBB"]. *)
Definition both := Generate alphabet (g_pairs first) "d2" (other 1%Z).

(** A [Pairs] whose [Expire] was set below zero, and two calls over it. *)
Definition hasty : Pairs := newPairs "" 0%N (-1)%Z 0%N.
Definition hasty_first := Generate alphabet hasty "d1" (stuck 0%Z).
Definition hasty_second :=
  Generate alphabet (g_pairs hasty_first) "d2" (stuck 1%Z).


(** The key of ["d1"] is redeemed, then ["d2"] asks and is rendered the
    same string. *)
Definition redeemed : Pairs := fst (GetDeviceID (g_pairs first) "AAAAAA" 2%Z).
Definition reentered := Generate alphabet redeemed "d2" (stuck 3%Z).

(** Calls that leave the key of ["d1"] alone. *)
Definition bystanders : list Op :=
  [OpGenerate "d2" (other 1%Z); OpGetDeviceID "nonexistent" 1%Z].

(** A renderer that gives ["AAAAAA"] in its first turn and ["BBBBBB"] in
    the turns after it. *)
Definition retry (now : time_Time) : World :=
  mkWorld (fun i _ _ => match i with O => "AAAAAA" | S _ => "BBBBBB" end)
    (fun _ => now) (fun _ => now).

(** ["d1"] asks, then ["d2"] a nanosecond later under [retry]. *)
Definition two_calls : list (string * World) :=
  [("d1", stuck 0%Z); ("d2", retry 1%Z)].

End Scenario.

(** * Properties *)

(** ** The two updates of the maps *)

Lemma reclaim_config k p :
  Dict (reclaim k p) = Dict p ∧ Length (reclaim k p) = Length p ∧
  Expire (reclaim k p) = Expire p ∧ MaxIter (reclaim k p) = MaxIter p.
Proof. unfold reclaim. by destruct (keys p !! k). Qed.

Lemma Inv_newPairs dict len expire maxIter :
  Inv (newPairs dict len expire maxIter).
Proof.
  split; simpl.
  - intros k r H. by rewrite lookup_empty in H.
  - intros d r H. by rewrite lookup_empty in H.
  - by rewrite !map_size_empty.
Qed.

(** Removing a record that is in the store keeps the two indexes in step. *)
Lemma Inv_purge p r :
  Inv p → keys p !! Key r = Some r → Inv (purge r p).
Proof.
  intros [Hk Hd Hs] Hr.
  destruct (Hk _ _ Hr) as [_ Hdr].
  split; simpl.
  - intros k r' [Hne Hr']%lookup_delete_Some.
    destruct (Hk _ _ Hr') as [Hkey Hdev]. split; [done|].
    rewrite lookup_delete_ne; [done|].
    intros Heq. rewrite <- Heq, Hdr in Hdev. congruence.
  - intros d r' [Hne Hr']%lookup_delete_Some.
    destruct (Hd _ _ Hr') as [Hdev Hkey]. split; [done|].
    rewrite lookup_delete_ne; [done|].
    intros Heq. rewrite <- Heq, Hr in Hkey. congruence.
  - rewrite !map_size_delete_Some by eauto. by rewrite Hs.
Qed.

Lemma purge_lookup_key p r :
  keys (purge r p) !! Key r = None.
Proof. apply lookup_delete_eq. Qed.

Lemma purge_lookup_device p r :
  devices (purge r p) !! DeviceID r = None.
Proof. apply lookup_delete_eq. Qed.

Lemma purge_keys_None p r k :
  keys p !! k = None → keys (purge r p) !! k = None.
Proof. intros H. apply lookup_delete_None. by right. Qed.

Lemma purge_devices_None p r d :
  devices p !! d = None → devices (purge r p) !! d = None.
Proof. intros H. apply lookup_delete_None. by right. Qed.

(** Entering a record for a device and a key that are both free keeps the
    two indexes in step. *)
Lemma Inv_store p d k t :
  Inv p → devices p !! d = None → keys p !! k = None →
  Inv (store d k (mkKeyInfo d k t) p).
Proof.
  intros [Hk Hd Hs] Hdn Hkn.
  split; simpl.
  - intros k' r [[<- <-]|[Hne Hr]]%lookup_insert_Some; simpl.
    + split; [done|]. apply lookup_insert_eq.
    + destruct (Hk _ _ Hr) as [Hkey Hdev]. split; [done|].
      rewrite lookup_insert_ne; [done|]. intros ->. congruence.
  - intros d' r [[<- <-]|[Hne Hr]]%lookup_insert_Some; simpl.
    + split; [done|]. apply lookup_insert_eq.
    + destruct (Hd _ _ Hr) as [Hdev Hkey]. split; [done|].
      rewrite lookup_insert_ne; [done|]. intros ->. congruence.
  - rewrite !map_size_insert_None by done. by rewrite Hs.
Qed.

Lemma Inv_reclaim p k : Inv p → Inv (reclaim k p).
Proof.
  intros HI. unfold reclaim.
  destruct (keys p !! k) as [r|] eqn:Hr; [|done].
  apply Inv_purge; [done|].
  destruct (inv_keys _ HI _ _ Hr) as [-> _]. done.
Qed.

Lemma reclaim_lookup_key p k : Inv p → keys (reclaim k p) !! k = None.
Proof.
  intros HI. unfold reclaim.
  destruct (keys p !! k) as [r|] eqn:Hr; [|done].
  destruct (inv_keys _ HI _ _ Hr) as [<- _]. apply purge_lookup_key.
Qed.

Lemma reclaim_devices_None p k d :
  devices p !! d = None → devices (reclaim k p) !! d = None.
Proof.
  intros H. unfold reclaim.
  destruct (keys p !! k); [|done]. by apply purge_devices_None.
Qed.

Lemma reclaim_keys_None p k k' :
  keys p !! k' = None → keys (reclaim k p) !! k' = None.
Proof.
  intros H. unfold reclaim.
  destruct (keys p !! k); [|done]. by apply purge_keys_None.
Qed.

(** ** The retry loop *)

(** The loop ends in one of the two ways of [loop_end]. *)
Lemma attempts_end w d left : ∀ i n key p,
  loop_end w d p left i n key (attempts w d left i n key p).
Proof.
  induction left as [|left IH]; intros i n key p.
  - replace (attempts w d 0 i n key p)
      with (mkGenerated p key (n + 0) false)
      by (simpl; by rewrite Nat.add_0_r).
    apply loop_exhausted. lia.
  - simpl. fold (candidate w p i).
    destruct (keys p !! candidate w p i) as [r|] eqn:Hr.
    + destruct (Since (clockSince w i) (Time r) <? Expire p)%Z eqn:Hlive.
      * assert (Hl : live w p i = true) by (unfold live; by rewrite Hr).
        destruct (IH (S i) (S n) (candidate w p i) p)
          as [Hall | j Hj Hbefore Hnow k].
        -- replace (mkGenerated p _ (S n + left) false)
             with (mkGenerated p (candidate w p (i + left)) (n + S left) false).
           { apply (loop_exhausted w d p (S left) i n key).
             intros [|j] Hj; [by rewrite Nat.add_0_r|].
             replace (i + S j) with (S i + j) by lia. apply Hall. lia. }
           f_equal; [|lia].
           destruct left; [by rewrite Nat.add_0_r|].
           f_equal. lia.
        -- subst k.
           replace (S i + j) with (i + S j) by lia.
           replace (S n + S j) with (n + S (S j)) by lia.
           apply (loop_break w d p (S left) i n key (S j)); [lia| |].
           ++ intros [|j'] Hj'; [by rewrite Nat.add_0_r|].
              replace (i + S j') with (S i + j') by lia. apply Hbefore. lia.
           ++ by replace (i + S j) with (S i + j) by lia.
      * assert (Hl : live w p (i + 0) = false)
          by (rewrite Nat.add_0_r; unfold live; by rewrite Hr).
        pose proof (loop_break w d p (S left) i n key 0
                      ltac:(lia) ltac:(lia) Hl) as H.
        simpl in H. rewrite Nat.add_0_r in H.
        unfold reclaim in H. rewrite Hr in H.
        by replace (n + 1) with (S n) in H by lia.
    + assert (Hl : live w p (i + 0) = false)
        by (rewrite Nat.add_0_r; unfold live; by rewrite Hr).
      pose proof (loop_break w d p (S left) i n key 0
                    ltac:(lia) ltac:(lia) Hl) as H.
      simpl in H. rewrite Nat.add_0_r in H.
      unfold reclaim in H. rewrite Hr in H.
      by replace (n + 1) with (S n) in H by lia.
Qed.

Section Properties.

Variable DictAlfa : Dictionary.

Local Abbreviation defaults := (defaults DictAlfa).
Local Abbreviation Generate := (Generate DictAlfa).
Local Abbreviation step := (step DictAlfa).
Local Abbreviation run := (run DictAlfa).

(** The state the retry loop of [Generate p d w] starts over. *)
Local Abbreviation before_loop p d := (supersede d (defaults p)).

(** ** Defaults and the superseded record *)

Lemma defaults_maps p :
  devices (defaults p) = devices p ∧ keys (defaults p) = keys p.
Proof. done. Qed.

Lemma Inv_defaults p : Inv p → Inv (defaults p).
Proof. intros [Hk Hd Hs]. by split. Qed.

Lemma defaults_MaxIter_pos p : (0 < N.to_nat (MaxIter (defaults p)))%nat.
Proof. simpl. destruct (N.eqb_spec (MaxIter p) 0); lia. Qed.

Lemma supersede_config d p :
  Dict (supersede d p) = Dict p ∧ Length (supersede d p) = Length p ∧
  Expire (supersede d p) = Expire p ∧ MaxIter (supersede d p) = MaxIter p.
Proof. unfold supersede. by destruct (devices p !! d). Qed.

Lemma Inv_supersede d p : Inv p → Inv (supersede d p).
Proof.
  intros HI. unfold supersede.
  destruct (devices p !! d) as [r|] eqn:Hr; [|done].
  apply Inv_purge; [done|]. by destruct (inv_devices _ HI _ _ Hr).
Qed.

Lemma supersede_device d p : Inv p → devices (supersede d p) !! d = None.
Proof.
  intros HI. unfold supersede.
  destruct (devices p !! d) as [r|] eqn:Hr; [|done].
  destruct (inv_devices _ HI _ _ Hr) as [<- _]. apply purge_lookup_device.
Qed.

(** The key of the superseded record is free again. *)
Lemma supersede_key d p r :
  devices p !! d = Some r → keys (supersede d p) !! Key r = None.
Proof. intros Hr. unfold supersede. rewrite Hr. apply purge_lookup_key. Qed.

Lemma before_loop_MaxIter d p :
  MaxIter (before_loop p d) = MaxIter (defaults p).
Proof. apply supersede_config. Qed.

(** ** [Generate] *)


Lemma Generate_end p d w :
  loop_end w d (before_loop p d)
    (N.to_nat (MaxIter (before_loop p d))) 0 0 "" (Generate p d w).
Proof. apply attempts_end. Qed.

(** A call that left the loop through [break] entered one record, for the
    candidate of the first turn that did not [continue]. *)
Lemma Generate_break p d w :
  g_break (Generate p d w) = true →
  ∃ j, (j < N.to_nat (MaxIter (defaults p)))%nat ∧
    (∀ j', (j' < j)%nat → live w (before_loop p d) j' = true) ∧
    live w (before_loop p d) j = false ∧
    g_key (Generate p d w) = candidate w (before_loop p d) j ∧
    g_renders (Generate p d w) = S j ∧
    g_pairs (Generate p d w) =
      store d (candidate w (before_loop p d) j)
        (mkKeyInfo d (candidate w (before_loop p d) j) (clockNow w j))
        (reclaim (candidate w (before_loop p d) j) (before_loop p d)).
Proof.
  intros Hb. pose proof (Generate_end p d w) as He.
  rewrite before_loop_MaxIter in He.
  inversion He as [Hall Heq | j Hj Hbefore Hnow k Heq];
    rewrite <- Heq in Hb; [done|].
  exists j. simpl in *. by repeat split.
Qed.

(** A call that ran out of turns changed nothing after the superseded
    record was removed; every turn found a live record, and the result is
    the candidate of the last turn. *)
Lemma Generate_exhausted p d w :
  g_break (Generate p d w) = false →
  let last := Nat.pred (N.to_nat (MaxIter (defaults p))) in
  (∀ j, (j < N.to_nat (MaxIter (defaults p)))%nat →
     live w (before_loop p d) j = true) ∧
  g_key (Generate p d w) = candidate w (before_loop p d) last ∧
  g_renders (Generate p d w) = N.to_nat (MaxIter (defaults p)) ∧
  g_pairs (Generate p d w) = before_loop p d.
Proof.
  intros Hb last. pose proof (Generate_end p d w) as He.
  rewrite before_loop_MaxIter in He.
  pose proof (defaults_MaxIter_pos p) as Hpos.
  inversion He as [Hall Heq | j Hj Hbefore Hnow k Heq];
    rewrite <- Heq in Hb; [|done].
  simpl in *. split; [done|]. split; [|done].
  subst last. destruct (N.to_nat _); [lia|done].
Qed.

Lemma Inv_Generate p d w : Inv p → Inv (g_pairs (Generate p d w)).
Proof.
  intros HI.
  assert (HIq : Inv (before_loop p d))
    by by apply Inv_supersede, Inv_defaults.
  assert (Hdq : devices (before_loop p d) !! d = None)
    by by apply supersede_device, Inv_defaults.
  destruct (g_break (Generate p d w)) eqn:Hb.
  - destruct (Generate_break _ _ _ Hb) as (j & _ & _ & _ & _ & _ & ->).
    apply Inv_store.
    + by apply Inv_reclaim.
    + by apply reclaim_devices_None.
    + by apply reclaim_lookup_key.
  - destruct (Generate_exhausted _ _ _ Hb) as (_ & _ & _ & ->). done.
Qed.

(** ** [GetDeviceID] *)

Lemma Inv_GetDeviceID p k now : Inv p → Inv (fst (GetDeviceID p k now)).
Proof.
  intros HI. unfold GetDeviceID.
  destruct (keys p !! k) as [r|] eqn:Hr; [|done]. simpl.
  apply Inv_purge; [done|].
  destruct (inv_keys _ HI _ _ Hr) as [-> _]. done.
Qed.

(** [GetDeviceID] enters no key. *)
Lemma GetDeviceID_keys_None p k now k' :
  keys p !! k' = None → keys (fst (GetDeviceID p k now)) !! k' = None.
Proof.
  intros H. unfold GetDeviceID.
  destruct (keys p !! k); [|done]. by apply purge_keys_None.
Qed.

Lemma GetDeviceID_absent p k now :
  keys p !! k = None → GetDeviceID p k now = (p, "").
Proof. intros H. unfold GetDeviceID. by rewrite H. Qed.

(** The key handed to [GetDeviceID] is free afterwards. *)
Lemma GetDeviceID_consumes p k now :
  Inv p → keys (fst (GetDeviceID p k now)) !! k = None.
Proof.
  intros HI. unfold GetDeviceID.
  destruct (keys p !! k) as [r|] eqn:Hr; [|done]. simpl.
  destruct (inv_keys _ HI _ _ Hr) as [<- _]. apply lookup_delete_eq.
Qed.

(** ** Sequences of calls *)

Lemma Inv_step p op : Inv p → Inv (step p op).
Proof.
  destruct op as [d w|k now]; simpl.
  - apply Inv_Generate.
  - apply Inv_GetDeviceID.
Qed.

Lemma Inv_run ops : ∀ p, Inv p → Inv (run ops p).
Proof.
  induction ops as [|op ops IH]; intros p HI; [done|].
  simpl. by apply IH, Inv_step.
Qed.

(** No turn of the loop writes a setting. *)
Lemma Generate_config p d w :
  let p' := g_pairs (Generate p d w) in
  Dict p' = Dict (defaults p) ∧ Length p' = Length (defaults p) ∧
  Expire p' = Expire (defaults p) ∧ MaxIter p' = MaxIter (defaults p).
Proof.
  simpl.
  pose proof (supersede_config d (defaults p)) as (HD & HL & HE & HM).
  destruct (g_break (Generate p d w)) eqn:Hb.
  - destruct (Generate_break _ _ _ Hb) as (j & _ & _ & _ & _ & _ & ->).
    pose proof (reclaim_config (candidate w (before_loop p d) j)
                  (before_loop p d)) as (HD' & HL' & HE' & HM').
    cbn [store set_maps Dict Length Expire MaxIter].
    by rewrite HD', HL', HE', HM', HD, HL, HE, HM.
  - destruct (Generate_exhausted _ _ _ Hb) as (_ & _ & _ & ->).
    by rewrite HD, HL, HE, HM.
Qed.

(** The record a successful call entered: it is filed under the returned
    key and under the device, and carries the clock reading of the turn
    that entered it (the last rendering of the call). *)
Lemma Generate_break_record p d w :
  Inv p → g_break (Generate p d w) = true →
  let g := Generate p d w in
  let r := mkKeyInfo d (g_key g) (clockNow w (Nat.pred (g_renders g))) in
  keys (g_pairs g) !! g_key g = Some r ∧ devices (g_pairs g) !! d = Some r.
Proof.
  intros HI Hb.
  destruct (Generate_break _ _ _ Hb) as (j & _ & _ & _ & Hk & Hn & Hp).
  simpl. rewrite Hn, Hk, Hp. simpl.
  by rewrite !lookup_insert_eq.
Qed.

(** A successful call leaves every key but the returned one as the loop
    found it or free. *)
Lemma Generate_break_other_key p d w k :
  g_break (Generate p d w) = true → k ≠ g_key (Generate p d w) →
  keys (before_loop p d) !! k = None →
  keys (g_pairs (Generate p d w)) !! k = None.
Proof.
  intros Hb Hne Hnone.
  destruct (Generate_break _ _ _ Hb) as (j & _ & _ & _ & Hk & _ & Hp).
  rewrite Hp. simpl. rewrite <- Hk.
  rewrite lookup_insert_ne by done. by apply reclaim_keys_None.
Qed.


(** ** Keys of calls that entered a record *)

(** A record of another device stays where it is when [d] asks. *)
Lemma supersede_keeps d p k r :
  Inv p → keys p !! k = Some r → DeviceID r ≠ d →
  keys (supersede d p) !! k = Some r.
Proof.
  intros HI Hr Hne. unfold supersede.
  destruct (devices p !! d) as [r'|] eqn:Hr'; [|done].
  simpl. rewrite lookup_delete_ne; [done|].
  intros <-. destruct (inv_devices _ HI _ _ Hr') as [Hd Hk].
  rewrite Hk in Hr. congruence.
Qed.

Lemma Generate_keeps p d w k r :
  Inv p → keys p !! k = Some r → DeviceID r ≠ d →
  (g_break (Generate p d w) = true →
   keys (before_loop p d) !! g_key (Generate p d w) = None) →
  keys (g_pairs (Generate p d w)) !! k = Some r ∧
  (g_break (Generate p d w) = true → g_key (Generate p d w) ≠ k).
Proof.
  intros HI Hr Hne Hfree.
  assert (Hq : keys (before_loop p d) !! k = Some r)
    by by apply supersede_keeps; [apply Inv_defaults|..].
  destruct (g_break (Generate p d w)) eqn:Hb.
  - specialize (Hfree eq_refl).
    assert (Hk : g_key (Generate p d w) ≠ k)
      by (intros Heq; rewrite Heq in Hfree; congruence).
    split; [|done].
    destruct (Generate_break _ _ _ Hb) as (j & _ & _ & _ & Hkey & _ & Hp).
    rewrite Hp. simpl. rewrite <- Hkey.
    rewrite lookup_insert_ne by done.
    unfold reclaim. by rewrite Hfree.
  - destruct (Generate_exhausted _ _ _ Hb) as (_ & _ & _ & ->). done.
Qed.

(** The key of a record whose device does not ask is not entered by the
    calls that follow. *)
Lemma issued_avoids calls : ∀ p k r,
  Inv p → keys p !! k = Some r → DeviceID r ∉ calls.*1 →
  no_expiry DictAlfa calls p → k ∉ (issued DictAlfa calls p).*2.
Proof.
  induction calls as [|[d w] calls IH]; intros p k r HI Hr Hnot Hno.
  - simpl. apply not_elem_of_nil.
  - simpl in Hnot, Hno. destruct Hno as [Hfree Hno].
    apply not_elem_of_cons in Hnot as [Hne Hnot].
    destruct (Generate_keeps p d w k r HI Hr Hne Hfree) as [Hkeep Hk].
    simpl. rewrite fmap_app. apply not_elem_of_app. split.
    + destruct (g_break (Generate p d w)); [|apply not_elem_of_nil].
      simpl. apply not_elem_of_cons. split; [|apply not_elem_of_nil].
      intros ->. by apply Hk.
    + by apply (IH _ _ r); [apply Inv_Generate|..].
Qed.

(** Calls of [Generate] for pairwise distinct devices, each entering a key
    that was free, enter pairwise distinct keys. *)
Lemma issued_NoDup calls : ∀ p,
  Inv p → NoDup calls.*1 → no_expiry DictAlfa calls p →
  NoDup (issued DictAlfa calls p).*2.
Proof.
  induction calls as [|[d w] calls IH]; intros p HI Hnd Hno.
  - simpl. apply NoDup_nil_2.
  - simpl in Hnd, Hno. destruct Hno as [Hfree Hno].
    apply NoDup_cons in Hnd as [Hnot Hnd].
    assert (Hrest : NoDup (issued DictAlfa calls (g_pairs (Generate p d w))).*2)
      by by apply IH; [apply Inv_Generate|..].
    simpl. destruct (g_break (Generate p d w)) eqn:Hb; [|done].
    simpl. apply NoDup_cons. split; [|done].
    destruct (Generate_break_record p d w HI Hb) as [Hk _].
    by apply (issued_avoids calls _ _ _ (Inv_Generate p d w HI) Hk).
Qed.

(** ** Redemption *)

(** What the first redemption of a freshly entered key returns. *)
Lemma first_redemption p d w now :
  Inv p →
  g_break (Generate p d w) = true →
  let g := Generate p d w in
  (Since now (clockNow w (Nat.pred (g_renders g))) < Expire (g_pairs g))%Z →
  snd (GetDeviceID (g_pairs g) (g_key g) now) = d ∧
  fst (GetDeviceID (g_pairs g) (g_key g) now) =
    purge (mkKeyInfo d (g_key g) (clockNow w (Nat.pred (g_renders g))))
      (g_pairs g).
Proof.
  intros HI Hb g Hlive.
  destruct (Generate_break_record p d w HI Hb) as [Hk _].
  fold g in Hk. unfold GetDeviceID. rewrite Hk. simpl.
  apply Z.ltb_lt in Hlive. by rewrite Hlive.
Qed.


(** C5. A key that is found but whose record is not younger than [Expire]
    is consumed all the same: the record leaves both maps, nothing else
    does, the call returns the empty string, and so does the next call
    with that key, which changes nothing. *)
Theorem GetDeviceID_expired p k r now :
  Inv p →
  keys p !! k = Some r →
  ¬ (Since now (Time r) < Expire p)%Z →
  let p1 := fst (GetDeviceID p k now) in
  snd (GetDeviceID p k now) = "" ∧
  keys p1 = delete k (keys p) ∧
  devices p1 = delete (DeviceID r) (devices p) ∧
  keys p1 !! k = None ∧ devices p1 !! DeviceID r = None ∧
  ∀ now', GetDeviceID p1 k now' = (p1, "").
Proof.
  intros HI Hr Hold p1.
  destruct (inv_keys _ HI _ _ Hr) as [Hkey _].
  assert (Hp1 : keys p1 !! k = None)
    by (subst p1; by apply GetDeviceID_consumes).
  assert (Hnext : ∀ now', GetDeviceID p1 k now' = (p1, ""))
    by (intros now'; by apply GetDeviceID_absent).
  assert (Hres : GetDeviceID p k now = (purge r p, "")).
  { unfold GetDeviceID. rewrite Hr.
    apply Z.ltb_nlt in Hold. by rewrite Hold. }
  subst p1. rewrite Hres in *. simpl in *. rewrite Hkey in *.
  repeat split; [done|apply lookup_delete_eq|done].
Qed.

(** C6. [GetDeviceID] of a key that [keys] does not hold returns the empty
    string and leaves the state as it was: the same two maps, of the same
    sizes. *)
Theorem GetDeviceID_unknown p k now :
  keys p !! k = None →
  let p1 := fst (GetDeviceID p k now) in
  snd (GetDeviceID p k now) = "" ∧ p1 = p ∧
  devices p1 = devices p ∧ keys p1 = keys p ∧
  size (devices p1) = size (devices p) ∧ size (keys p1) = size (keys p).
Proof.
  intros H p1. subst p1. by rewrite (GetDeviceID_absent _ _ now H).
Qed.

(** ** The two indexes *)

(** C7. From a [Pairs] with nothing in its maps, after any sequence of
    calls of [Generate] and [GetDeviceID], a record is filed in [devices]
    under its [DeviceID] exactly when it is filed in [keys] under its
    [Key]; nothing is filed under another name; the maps have the same
    size. *)
Theorem indexes_agree dict len expire maxIter ops :
  let p := run ops (newPairs dict len expire maxIter) in
  (∀ r, devices p !! DeviceID r = Some r ↔ keys p !! Key r = Some r) ∧
  (∀ d r, devices p !! d = Some r ↔ DeviceID r = d ∧ keys p !! Key r = Some r) ∧
  (∀ k r, keys p !! k = Some r ↔ Key r = k ∧ devices p !! DeviceID r = Some r) ∧
  size (devices p) = size (keys p).
Proof.
  intros p.
  assert (HI : Inv p) by apply Inv_run, Inv_newPairs.
  destruct HI as [Hk Hd Hs].
  repeat split; try done.
  - intros H. by destruct (Hd _ _ H).
  - intros H. by destruct (Hk _ _ H).
  - by destruct (Hd _ _ H).
  - by destruct (Hd _ _ H).
  - intros [<- H]. by destruct (Hk _ _ H).
  - by destruct (Hk _ _ H).
  - by destruct (Hk _ _ H).
  - intros [<- H]. by destruct (Hd _ _ H).
Qed.

(** ** Configuration *)

(** C8. After a call of [Generate], each of the four settings that was at
    its zero value holds its default ([DictAlfa], 6, 30 minutes, 1000) and
    each that was not holds what it held; the key the call returns was
    rendered from those settings. *)
Theorem Generate_defaults p d w :
  let g := Generate p d w in
  Dict (g_pairs g) = (if decide (String.length (Dict p) = 0%nat)
                      then DictAlfa else Dict p) ∧
  Length (g_pairs g) = (if decide (Length p = 0%N) then 6%N else Length p) ∧
  Expire (g_pairs g) = (if decide (Expire p = 0%Z)
                        then (30 * 60 * 1000000000)%Z else Expire p) ∧
  MaxIter (g_pairs g) = (if decide (MaxIter p = 0%N)
                         then 1000%N else MaxIter p) ∧
  ∃ j, (j < g_renders g)%nat ∧
    g_key g = DictGenerate w j (Dict (g_pairs g)) (Length (g_pairs g)).
Proof.
  intros g.
  assert (Hcfg : Dict (g_pairs g) = Dict (defaults p) ∧
                 Length (g_pairs g) = Length (defaults p) ∧
                 Expire (g_pairs g) = Expire (defaults p) ∧
                 MaxIter (g_pairs g) = MaxIter (defaults p) ∧
                 ∃ j, (j < g_renders g)%nat ∧
                   g_key g = candidate w (before_loop p d) j).
  { pose proof (Generate_config p d w) as (HD & HL & HE & HM).
    repeat (split; [done|]).
    subst g. destruct (g_break (Generate p d w)) eqn:Hb.
    - destruct (Generate_break _ _ _ Hb) as (j & _ & _ & _ & Hk & Hn & _).
      exists j. split; [lia|done].
    - destruct (Generate_exhausted _ _ _ Hb) as (_ & Hk & Hn & _).
      eexists. split; [|exact Hk].
      pose proof (defaults_MaxIter_pos p). lia. }
  destruct Hcfg as (HD & HL & HE & HM & j & Hj & Hk).
  rewrite HD, HL, HE, HM.
  repeat split.
  - simpl. destruct (Nat.eqb_spec (String.length (Dict p)) 0);
      by case_decide.
  - simpl. destruct (N.eqb_spec (Length p) 0); by case_decide.
  - simpl. destruct (Z.eqb_spec (Expire p) 0); by case_decide.
  - simpl. destruct (N.eqb_spec (MaxIter p) 0); by case_decide.
  - exists j. split; [done|]. rewrite Hk. unfold candidate.
    by destruct (supersede_config d (defaults p)) as (-> & -> & _).
Qed.

(** ** Termination *)

(** C9. [Generate] is a total function of the state, the device and the
    environment, and a call takes at least one and at most [MaxIter]
    renderings (1000 when [MaxIter] was left at zero); a call that ran out
    of turns took exactly that many. *)
Theorem Generate_bounded p d w :
  let g := Generate p d w in
  let maxAttempts :=
    N.to_nat (if decide (MaxIter p = 0%N) then 1000%N else MaxIter p) in
  (1 ≤ g_renders g ≤ maxAttempts)%nat ∧
  (g_break g = true ∨ g_renders g = maxAttempts).
Proof.
  intros g maxAttempts.
  assert (Hmax : maxAttempts = N.to_nat (MaxIter (defaults p))).
  { subst maxAttempts. simpl.
    destruct (N.eqb_spec (MaxIter p) 0); by case_decide. }
  rewrite Hmax. subst g.
  destruct (g_break (Generate p d w)) eqn:Hb.
  - destruct (Generate_break _ _ _ Hb) as (j & Hj & _ & _ & _ & Hn & _).
    split; [lia|by left].
  - destruct (Generate_exhausted _ _ _ Hb) as (_ & _ & Hn & _).
    pose proof (defaults_MaxIter_pos p). split; [lia|by right].
Qed.

(** ** One record per device *)

(** C4, as the code has it.  After [Generate p d w1] entered a record,
    [Generate] for [d] again starts its loop over a state with no record
    for [d] and with the first key free, and leaves that state when it runs
    out of turns.  Afterwards [GetDeviceID] of the first key returns the
    empty string unless the second call entered that very key again; the
    key a successful second call entered redeems to [d] while it is
    younger than [Expire]; and no two keys of the store belong to one
    device. *)
Theorem Generate_twice p d w1 w2 :
  Inv p →
  g_break (Generate p d w1) = true →
  let g1 := Generate p d w1 in
  let q := before_loop (g_pairs g1) d in
  let g2 := Generate (g_pairs g1) d w2 in
  (devices q !! d = None ∧ keys q !! g_key g1 = None) ∧
  (g_break g2 = false → g_pairs g2 = q) ∧
  (g_break g2 = false ∨ g_key g2 ≠ g_key g1 →
   ∀ now, snd (GetDeviceID (g_pairs g2) (g_key g1) now) = "") ∧
  (g_break g2 = true →
   ∀ now,
     (Since now (clockNow w2 (Nat.pred (g_renders g2))) < Expire (g_pairs g2))%Z →
     snd (GetDeviceID (g_pairs g2) (g_key g2) now) = d) ∧
  (∀ k k' r r', keys (g_pairs g2) !! k = Some r →
     keys (g_pairs g2) !! k' = Some r' → DeviceID r = DeviceID r' → k = k').
Proof.
  intros HI Hb1 g1 q g2.
  assert (HI1 : Inv (g_pairs g1)) by by apply Inv_Generate.
  assert (HI2 : Inv (g_pairs g2)) by by apply Inv_Generate.
  destruct (Generate_break_record p d w1 HI Hb1) as [Hk1 Hd1].
  fold g1 in Hk1, Hd1.
  assert (Hqd : devices q !! d = None)
    by by apply supersede_device, Inv_defaults.
  assert (Hqk : keys q !! g_key g1 = None)
    by apply (supersede_key d (defaults (g_pairs g1)) _ Hd1).
  split; [done|]. split; [|split; [|split]].
  - intros Hb2. by destruct (Generate_exhausted _ _ _ Hb2) as (_ & _ & _ & ?).
  - intros Hcase now.
    assert (Hfree : keys (g_pairs g2) !! g_key g1 = None).
    { destruct (g_break g2) eqn:Hb2.
      - destruct Hcase as [?|Hne]; [done|].
        by apply Generate_break_other_key.
      - destruct (Generate_exhausted _ _ _ Hb2) as (_ & _ & _ & Hp2).
        fold g2 in Hp2. by rewrite Hp2. }
    by rewrite (GetDeviceID_absent _ _ now Hfree).
  - intros Hb2 now Hlive.
    by destruct (first_redemption (g_pairs g1) d w2 now HI1 Hb2 Hlive).
  - intros k k' r r' Hr Hr' Heq.
    destruct (inv_keys _ HI2 _ _ Hr) as [<- Hdr].
    destruct (inv_keys _ HI2 _ _ Hr') as [<- Hdr'].
    rewrite Heq in Hdr. congruence.
Qed.

(** ** The empty device identifier *)


(** * Further properties of [Generate] and [GetDeviceID] *)

(** ** When [Generate] enters a record *)

(** The first turn already enters a record when its candidate is not the
    key of a live record. *)
Lemma Generate_first_turn p d w :
  live w (before_loop p d) 0 = false →
  g_break (Generate p d w) = true ∧ g_renders (Generate p d w) = 1%nat ∧
  g_key (Generate p d w) = candidate w (before_loop p d) 0.
Proof.
  intros Hfree. pose proof (defaults_MaxIter_pos p) as Hpos.
  destruct (g_break (Generate p d w)) eqn:Hb.
  - destruct (Generate_break _ _ _ Hb) as (j & _ & Hbefore & _ & Hk & Hn & _).
    destruct j as [|j]; [done|].
    rewrite (Hbefore 0%nat) in Hfree by lia. done.
  - destruct (Generate_exhausted _ _ _ Hb) as (Hall & _).
    rewrite (Hall 0%nat) in Hfree by done. done.
Qed.

(** X2. When the key [Generate] enters for [d] was still held by a record
    of another device, that record had reached [Expire] at the turn that
    met it; the call removes it from both maps, so its device is left
    without a record, and the key now redeems to [d]. *)
Theorem Generate_reclaims p d w r0 now :
  Inv p →
  g_break (Generate p d w) = true →
  keys p !! g_key (Generate p d w) = Some r0 →
  DeviceID r0 ≠ d →
  let g := Generate p d w in
  let turn := Nat.pred (g_renders g) in
  (Since now (clockNow w turn) < Expire (g_pairs g))%Z →
  ¬ (Since (clockSince w turn) (Time r0) < Expire (g_pairs g))%Z ∧
  devices (g_pairs g) !! DeviceID r0 = None ∧
  keys (g_pairs g) !! g_key g = Some (mkKeyInfo d (g_key g) (clockNow w turn)) ∧
  snd (GetDeviceID (g_pairs g) (g_key g) now) = d.
Proof.
  intros HI Hb Hr0 Hne g turn Hlive. subst turn g.
  destruct (Generate_break_record p d w HI Hb) as [Hk _].
  pose proof (Generate_config p d w) as (_ & _ & HE & _).
  pose proof (supersede_config d (defaults p)) as (_ & _ & HEq & _).
  assert (Hq : keys (before_loop p d) !! g_key (Generate p d w) = Some r0)
    by by apply supersede_keeps; [apply Inv_defaults|..].
  destruct (Generate_break _ _ _ Hb) as (j & _ & _ & Hfree & Hkey & Hn & Hp).
  split; [|split; [|split]].
  - unfold live in Hfree. rewrite <- Hkey, Hq in Hfree.
    apply Z.ltb_nlt in Hfree. rewrite Hn, HE, <- HEq. done.
  - rewrite Hp. simpl. rewrite lookup_insert_ne by done.
    rewrite <- Hkey. unfold reclaim. rewrite Hq. apply lookup_delete_eq.
  - done.
  - unfold GetDeviceID. rewrite Hk. simpl.
    apply Z.ltb_lt in Hlive. by rewrite Hlive.
Qed.

(** X3. [Generate] for [d] touches no record of another device but the one
    holding the key it enters: any other record, expired or not, is in
    both maps afterwards as it was before. *)
Theorem Generate_frame p d w k r :
  Inv p →
  keys p !! k = Some r →
  DeviceID r ≠ d →
  k ≠ g_key (Generate p d w) →
  keys (g_pairs (Generate p d w)) !! k = Some r ∧
  devices (g_pairs (Generate p d w)) !! DeviceID r = Some r.
Proof.
  intros HI Hr Hne Hk.
  assert (Hq : keys (before_loop p d) !! k = Some r)
    by by apply supersede_keeps; [apply Inv_defaults|..].
  assert (Hkeys : keys (g_pairs (Generate p d w)) !! k = Some r).
  { destruct (g_break (Generate p d w)) eqn:Hb.
    - destruct (Generate_break _ _ _ Hb) as (j & _ & _ & _ & Hkey & _ & Hp).
      rewrite Hp. simpl. rewrite <- Hkey.
      rewrite lookup_insert_ne by done.
      unfold reclaim.
      destruct (keys (before_loop p d) !! g_key (Generate p d w))
        as [r1|] eqn:Hr1; [|done].
      simpl. rewrite lookup_delete_ne; [done|].
      destruct (inv_keys _ (Inv_supersede d _ (Inv_defaults _ HI)) _ _ Hr1)
        as [-> _]. done.
    - by destruct (Generate_exhausted _ _ _ Hb) as (_ & _ & _ & ->). }
  split; [done|].
  by destruct (inv_keys _ (Inv_Generate p d w HI) _ _ Hkeys).
Qed.

(** ** What the store can hold *)

Lemma purge_devices_is_Some r p d :
  is_Some (devices (purge r p) !! d) → is_Some (devices p !! d).
Proof. simpl. rewrite lookup_delete_is_Some. by intros [_ ?]. Qed.

Lemma supersede_devices_is_Some d p d' :
  is_Some (devices (supersede d p) !! d') → is_Some (devices p !! d').
Proof.
  unfold supersede. destruct (devices p !! d); [|done].
  apply purge_devices_is_Some.
Qed.

Lemma supersede_keys_Some d p k r :
  keys (supersede d p) !! k = Some r → keys p !! k = Some r.
Proof.
  unfold supersede. destruct (devices p !! d); [|done].
  simpl. rewrite lookup_delete_Some. by intros [_ ?].
Qed.

(** A call of [Generate] for [d] gives no other device a record. *)
Lemma Generate_devices_is_Some p d w d' :
  is_Some (devices (g_pairs (Generate p d w)) !! d') →
  d' = d ∨ is_Some (devices p !! d').
Proof.
  destruct (g_break (Generate p d w)) eqn:Hb.
  - destruct (Generate_break _ _ _ Hb) as (j & _ & _ & _ & _ & _ & ->).
    simpl. rewrite lookup_insert_is_Some'. intros [<-|H]; [by left|right].
    apply (supersede_devices_is_Some d (defaults p)). revert H.
    unfold reclaim.
    destruct (keys _ !! _); [apply purge_devices_is_Some|done].
  - destruct (Generate_exhausted _ _ _ Hb) as (_ & _ & _ & ->).
    intros H. right. by apply (supersede_devices_is_Some d (defaults p)).
Qed.

Lemma GetDeviceID_devices_is_Some p k now d :
  is_Some (devices (fst (GetDeviceID p k now)) !! d) →
  is_Some (devices p !! d).
Proof.
  unfold GetDeviceID. destruct (keys p !! k); [|done].
  apply purge_devices_is_Some.
Qed.

Lemma run_devices_is_Some ops : ∀ p d,
  is_Some (devices (run ops p) !! d) →
  d ∈ asked ops ∨ is_Some (devices p !! d).
Proof.
  induction ops as [|[d0 w|k now] ops IH]; intros p d H; [by right|..].
  - destruct (IH _ _ H) as [Hin|Hsome].
    + left. simpl. by apply list_elem_of_further.
    + destruct (Generate_devices_is_Some _ _ _ _ Hsome) as [->|Hp];
        [left; simpl; apply list_elem_of_here|by right].
  - destruct (IH _ _ H) as [Hin|Hsome]; [by left|right].
    by apply (GetDeviceID_devices_is_Some p k now).
Qed.

Lemma size_list_to_set_le (l : list string) :
  (size (list_to_set l : gset string) ≤ length l)%nat.
Proof.
  induction l as [|x l IH].
  - by rewrite list_to_set_nil, size_empty.
  - rewrite list_to_set_cons. cbn [length].
    destruct (decide (x ∈ (list_to_set l : gset string))) as [Hin|Hnin].
    + rewrite (subseteq_union_1_L {[x]} (list_to_set l)); [lia|].
      by apply singleton_subseteq_l.
    + rewrite size_union by by apply disjoint_singleton_l.
      rewrite size_singleton. lia.
Qed.

(** X4. From a [Pairs] with nothing in its maps, whatever calls are made,
    only devices [Generate] was called for have a record, and each map
    holds at most as many records as there are distinct such devices. *)
Theorem store_bounded dict len expire maxIter ops :
  let p := run ops (newPairs dict len expire maxIter) in
  let named : gset string := list_to_set (asked ops) in
  dom (devices p) ⊆ named ∧
  (size (devices p) ≤ size named)%nat ∧
  (size (keys p) ≤ size named)%nat ∧
  (size named ≤ length (asked ops))%nat.
Proof.
  intros p named.
  assert (Hdom : dom (devices p) ⊆ named).
  { intros d [r Hr]%elem_of_dom. apply elem_of_list_to_set.
    destruct (run_devices_is_Some ops _ d (mk_is_Some _ _ Hr))
      as [?|[r0 Hr0]]; [done|].
    simpl in Hr0. by rewrite lookup_empty in Hr0. }
  assert (Hsize : (size (devices p) ≤ size named)%nat).
  { rewrite <- (size_dom (D:=gset string) (devices p)).
    by apply subseteq_size. }
  assert (HI : Inv p) by apply Inv_run, Inv_newPairs.
  repeat split; [done|done|by rewrite <- (inv_size _ HI)|].
  apply size_list_to_set_le.
Qed.

(** X5. [GetDeviceID] names no device of its own: from a [Pairs] with
    nothing in its maps, a non-empty answer is the identifier of a device
    that an earlier call of [Generate] was made for. *)
Theorem GetDeviceID_names_asked dict len expire maxIter ops k now :
  let p := run ops (newPairs dict len expire maxIter) in
  snd (GetDeviceID p k now) ≠ "" →
  snd (GetDeviceID p k now) ∈ asked ops.
Proof.
  intros p Hne.
  assert (HI : Inv p) by apply Inv_run, Inv_newPairs.
  unfold GetDeviceID in *.
  destruct (keys p !! k) as [r|] eqn:Hr; [|done]. simpl in *.
  destruct (_ <? _)%Z; [|done].
  destruct (inv_keys _ HI _ _ Hr) as [_ Hd].
  destruct (run_devices_is_Some ops _ _ (mk_is_Some _ _ Hd))
    as [?|[r0 Hr0]]; [done|].
  simpl in Hr0. by rewrite lookup_empty in Hr0.
Qed.

(** X6. Asking again does not grow the store: when [d] already has a
    record, neither map holds more records after [Generate] for [d] than
    before. *)
Theorem Generate_again_size p d w :
  Inv p →
  is_Some (devices p !! d) →
  (size (keys (g_pairs (Generate p d w))) ≤ size (keys p))%nat ∧
  (size (devices (g_pairs (Generate p d w))) ≤ size (devices p))%nat.
Proof.
  intros HI [r Hr].
  assert (HI' : Inv (g_pairs (Generate p d w))) by by apply Inv_Generate.
  rewrite (inv_size _ HI), (inv_size _ HI').
  cut (size (keys (g_pairs (Generate p d w))) ≤ size (keys p))%nat; [done|].
  destruct (inv_devices _ HI _ _ Hr) as [_ Hk].
  assert (Hq : size (keys (before_loop p d)) = Nat.pred (size (keys p))).
  { unfold supersede. rewrite (proj1 (defaults_maps p)), Hr. simpl.
    by rewrite map_size_delete_Some. }
  assert (Hpos : (0 < size (keys p))%nat).
  { destruct (size (keys p)) eqn:Hs; [|lia].
    apply map_size_empty_inv in Hs. rewrite Hs in Hk.
    by rewrite lookup_empty in Hk. }
  destruct (g_break (Generate p d w)) eqn:Hb.
  - destruct (Generate_break _ _ _ Hb) as (j & _ & _ & _ & _ & _ & ->).
    simpl. rewrite map_size_insert.
    assert (Hle : (size (keys (reclaim (candidate w (before_loop p d) j)
                                 (before_loop p d)))
                   ≤ size (keys (before_loop p d)))%nat).
    { unfold reclaim.
      destruct (keys (before_loop p d) !! candidate w (before_loop p d) j)
        as [r1|]; [|done].
      cbn [purge set_maps keys]. rewrite map_size_delete.
      destruct (keys (before_loop p d) !! Key r1); simpl; lia. }
    destruct (keys _ !! candidate w (before_loop p d) j); simpl; lia.
  - destruct (Generate_exhausted _ _ _ Hb) as (_ & _ & _ & ->). lia.
Qed.

(** ** The settings after the first call *)

Lemma defaults_config_ext p1 p2 :
  config p1 = config p2 → config (defaults p1) = config (defaults p2).
Proof.
  unfold config. intros [= HD HL HE HM]. simpl.
  by rewrite HD, HL, HE, HM.
Qed.

(** Defaults are not applied twice. *)
Lemma defaults_config_idemp p :
  config (defaults (defaults p)) = config (defaults p).
Proof.
  unfold config. simpl. repeat f_equal.
  - destruct (Nat.eqb_spec (String.length (Dict p)) 0) as [H0|Hn0].
    + by destruct (String.length DictAlfa =? 0)%nat.
    + by destruct (Nat.eqb_spec (String.length (Dict p)) 0).
  - by destruct (N.eqb_spec (Length p) 0) as [H0|Hn0];
      [|destruct (N.eqb_spec (Length p) 0)].
  - by destruct (Z.eqb_spec (Expire p) 0) as [H0|Hn0];
      [|destruct (Z.eqb_spec (Expire p) 0)].
  - by destruct (N.eqb_spec (MaxIter p) 0) as [H0|Hn0];
      [|destruct (N.eqb_spec (MaxIter p) 0)].
Qed.

Lemma Generate_config_eq p d w :
  config (g_pairs (Generate p d w)) = config (defaults p).
Proof.
  pose proof (Generate_config p d w) as (HD & HL & HE & HM).
  unfold config. by rewrite HD, HL, HE, HM.
Qed.

Lemma GetDeviceID_config p k now :
  config (fst (GetDeviceID p k now)) = config p.
Proof. unfold GetDeviceID. by destruct (keys p !! k). Qed.

Lemma run_config ops : ∀ p,
  config (defaults p) = config p → config (run ops p) = config p.
Proof.
  induction ops as [|[d w|k now] ops IH]; intros p Hp; [done|..]; simpl.
  - rewrite IH.
    + by rewrite Generate_config_eq.
    + rewrite (defaults_config_ext _ _ (Generate_config_eq p d w)).
      by rewrite Generate_config_eq, defaults_config_idemp.
  - rewrite IH.
    + apply GetDeviceID_config.
    + rewrite (defaults_config_ext _ _ (GetDeviceID_config p k now)).
      by rewrite GetDeviceID_config.
Qed.

(** X7. The settings are fixed by the first call of [Generate]: whatever
    calls follow it, the four settings stay what that call left, which is
    what the caller had set with the defaults filled in.  Calls of
    [GetDeviceID] alone fill in nothing. *)
Theorem config_settled p d w ops calls :
  config (run ops (g_pairs (Generate p d w))) = config (defaults p) ∧
  config (redeem_all calls p) = config p.
Proof.
  split.
  - rewrite run_config; [apply Generate_config_eq|].
    rewrite (defaults_config_ext _ _ (Generate_config_eq p d w)).
    by rewrite Generate_config_eq, defaults_config_idemp.
  - revert p. induction calls as [|[k now] calls IH]; intros p; [done|].
    simpl. by rewrite IH, GetDeviceID_config.
Qed.

(** ** An [Expire] that is not positive *)

(** A record is never younger than nothing. *)
Lemma Since_nonneg now t : (t ≤ now)%Z → (0 ≤ Since now t)%Z.
Proof.
  intros H. unfold Since, Sub.
  assert (Hmin : (minDuration < 0)%Z) by done.
  assert (Hmax : (0 < maxDuration)%Z) by done.
  destruct (Z.ltb_spec (now - t) minDuration); [lia|].
  destruct (Z.ltb_spec maxDuration (now - t)); lia.
Qed.

(** X8. Only an [Expire] of zero is replaced by the default; a negative
    one is kept by [Generate], and with it no key redeems: [GetDeviceID]
    returns the empty string for every key, at any clock reading that is
    not before the time in the record. *)
Theorem negative_Expire_never_redeems p d w k now :
  (Expire p < 0)%Z →
  (∀ r, keys (g_pairs (Generate p d w)) !! k = Some r → (Time r ≤ now)%Z) →
  Expire (g_pairs (Generate p d w)) = Expire p ∧
  snd (GetDeviceID (g_pairs (Generate p d w)) k now) = "".
Proof.
  intros Hneg Hclock.
  assert (HE : Expire (g_pairs (Generate p d w)) = Expire p).
  { destruct (Generate_config p d w) as (_ & _ & -> & _). simpl.
    destruct (Z.eqb_spec (Expire p) 0); [lia|done]. }
  split; [done|].
  unfold GetDeviceID.
  destruct (keys (g_pairs (Generate p d w)) !! k) as [r|] eqn:Hr; [|done].
  simpl. pose proof (Since_nonneg now (Time r) (Hclock r eq_refl)).
  destruct (Z.ltb_spec (Since now (Time r))
              (Expire (g_pairs (Generate p d w)))); [lia|done].
Qed.

(** ** Two redemptions *)

(** X10. Redeeming two different keys gives each caller the same answer
    and leaves the same store in whichever order the two calls are
    served. *)
Theorem GetDeviceID_commute p k1 k2 now1 now2 :
  Inv p →
  k1 ≠ k2 →
  let a := GetDeviceID p k1 now1 in
  let ab := GetDeviceID (fst a) k2 now2 in
  let b := GetDeviceID p k2 now2 in
  let ba := GetDeviceID (fst b) k1 now1 in
  snd a = snd ba ∧ snd ab = snd b ∧ fst ab = fst ba.
Proof.
  intros HI Hne a ab b ba. subst ab ba a b. unfold GetDeviceID.
  destruct (keys p !! k1) as [r1|] eqn:H1;
    destruct (keys p !! k2) as [r2|] eqn:H2; simpl.
  - destruct (inv_keys _ HI _ _ H1) as [E1 _].
    destruct (inv_keys _ HI _ _ H2) as [E2 _].
    rewrite E1, E2.
    rewrite (lookup_delete_ne _ k1 k2), (lookup_delete_ne _ k2 k1) by done.
    rewrite H1, H2. simpl. repeat split.
    unfold purge, set_maps. simpl. rewrite E1, E2.
    f_equal; apply delete_delete.
  - destruct (inv_keys _ HI _ _ H1) as [E1 _]. rewrite E1.
    rewrite (lookup_delete_ne _ k1 k2) by done.
    by rewrite H1, H2.
  - destruct (inv_keys _ HI _ _ H2) as [E2 _]. rewrite E2.
    rewrite (lookup_delete_ne _ k2 k1) by done.
    by rewrite H1, H2.
  - by rewrite H1, H2.
Qed.

(** ** Redemption among other calls *)

Lemma supersede_keys_None d p k :
  keys p !! k = None → keys (supersede d p) !! k = None.
Proof.
  intros H. unfold supersede.
  destruct (devices p !! d); [|done]. by apply purge_keys_None.
Qed.

(** A call of [Generate] for another device that does not enter [k] leaves
    the record of [k] where it is. *)
Lemma Generate_keeps_record p d w k r :
  Inv p → keys p !! k = Some r → DeviceID r ≠ d →
  (g_break (Generate p d w) = true → g_key (Generate p d w) ≠ k) →
  keys (g_pairs (Generate p d w)) !! k = Some r.
Proof.
  intros HI Hr Hne Hk.
  assert (Hq : keys (before_loop p d) !! k = Some r)
    by by apply supersede_keeps; [apply Inv_defaults|..].
  destruct (g_break (Generate p d w)) eqn:Hb.
  - specialize (Hk eq_refl).
    destruct (Generate_break _ _ _ Hb) as (j & _ & _ & _ & Hkey & _ & Hp).
    rewrite Hp. simpl. rewrite <- Hkey.
    rewrite lookup_insert_ne by done.
    unfold reclaim.
    destruct (keys (before_loop p d) !! g_key (Generate p d w))
      as [r1|] eqn:Hr1; [|done].
    simpl. rewrite lookup_delete_ne; [done|].
    destruct (inv_keys _ (Inv_supersede d _ (Inv_defaults _ HI)) _ _ Hr1)
      as [-> _]. done.
  - by destruct (Generate_exhausted _ _ _ Hb) as (_ & _ & _ & ->).
Qed.

(** A call of [Generate] that does not enter [k] leaves [k] free. *)
Lemma Generate_keeps_free p d w k :
  keys p !! k = None →
  (g_break (Generate p d w) = true → g_key (Generate p d w) ≠ k) →
  keys (g_pairs (Generate p d w)) !! k = None.
Proof.
  intros Hnone Hk.
  assert (Hq : keys (before_loop p d) !! k = None)
    by by apply supersede_keys_None.
  destruct (g_break (Generate p d w)) eqn:Hb.
  - apply Generate_break_other_key; [done| |done].
    intros Heq. by apply Hk.
  - by destruct (Generate_exhausted _ _ _ Hb) as (_ & _ & _ & ->).
Qed.

Lemma GetDeviceID_keeps_record p k' now k :
  Inv p → k' ≠ k →
  keys (fst (GetDeviceID p k' now)) !! k = keys p !! k.
Proof.
  intros HI Hne. unfold GetDeviceID.
  destruct (keys p !! k') as [r|] eqn:Hr; [|done]. simpl.
  destruct (inv_keys _ HI _ _ Hr) as [E _]. rewrite E.
  by rewrite lookup_delete_ne.
Qed.

Lemma run_undisturbed ops : ∀ p k r,
  Inv p → keys p !! k = Some r →
  undisturbed DictAlfa (DeviceID r) k ops p →
  keys (run ops p) !! k = Some r.
Proof.
  induction ops as [|[d w|k' now] ops IH]; intros p k r HI Hr Hun; [done|..].
  - destruct Hun as [[Hne Hk] Hun]. simpl.
    apply IH; [by apply Inv_Generate| |done].
    by apply Generate_keeps_record.
  - destruct Hun as [Hne Hun]. simpl.
    apply IH; [by apply Inv_GetDeviceID| |done].
    by rewrite GetDeviceID_keeps_record.
Qed.

Lemma run_not_entered ops : ∀ p k,
  keys p !! k = None → not_entered DictAlfa k ops p →
  keys (run ops p) !! k = None.
Proof.
  induction ops as [|[d w|k' now] ops IH]; intros p k Hnone Hno; [done|..].
  - destruct Hno as [Hk Hno]. simpl.
    apply IH; [|done]. by apply Generate_keeps_free.
  - destruct Hno as [_ Hno]. simpl.
    apply IH; [|done]. by apply GetDeviceID_keys_None.
Qed.

(** C3, as the code has it.  A key that [Generate] entered for [d] is
    redeemed once.  The first [GetDeviceID] of the key returns [d] when the
    record is younger than [Expire] and the calls made since left it alone
    (no [GetDeviceID] of the key, no [Generate] for [d], no [Generate]
    entering the key).  That call takes the record out of both maps, and
    from then on [GetDeviceID] of the key returns the empty string,
    whatever calls come in between, as long as none of them is a
    [Generate] that enters the key again. *)
Theorem GetDeviceID_single_use p d w ops1 now :
  Inv p →
  g_break (Generate p d w) = true →
  let g := Generate p d w in
  undisturbed DictAlfa d (g_key g) ops1 (g_pairs g) →
  (Since now (clockNow w (Nat.pred (g_renders g))) < Expire (g_pairs g))%Z →
  let p1 := run ops1 (g_pairs g) in
  let p2 := fst (GetDeviceID p1 (g_key g) now) in
  snd (GetDeviceID p1 (g_key g) now) = d ∧
  keys p2 !! g_key g = None ∧ devices p2 !! d = None ∧
  ∀ ops2 now', not_entered DictAlfa (g_key g) ops2 p2 →
    snd (GetDeviceID (run ops2 p2) (g_key g) now') = "".
Proof.
  intros HI Hb g Hun Hlive p1 p2.
  destruct (Generate_break_record p d w HI Hb) as [Hk _].
  fold g in Hk.
  assert (HI1 : Inv p1) by by apply Inv_run, Inv_Generate.
  assert (Hk1 : keys p1 !! g_key g
                = Some (mkKeyInfo d (g_key g)
                          (clockNow w (Nat.pred (g_renders g)))))
    by by apply run_undisturbed; [apply Inv_Generate|..].
  assert (HE : Expire p1 = Expire (g_pairs g)).
  { assert (Hc : config p1 = config (g_pairs g)).
    { subst p1 g. apply run_config.
      rewrite (defaults_config_ext _ _ (Generate_config_eq p d w)).
      by rewrite Generate_config_eq, defaults_config_idemp. }
    unfold config in Hc. congruence. }
  assert (Hp2 : keys p2 !! g_key g = None)
    by (subst p2; by apply GetDeviceID_consumes).
  split; [|split; [done|split]].
  - unfold GetDeviceID. rewrite Hk1. simpl. rewrite HE.
    apply Z.ltb_lt in Hlive. by rewrite Hlive.
  - subst p2. unfold GetDeviceID. rewrite Hk1. apply lookup_delete_eq.
  - intros ops2 now' Hno.
    apply (f_equal snd (GetDeviceID_absent _ _ now'
                          (run_not_entered ops2 _ _ Hp2 Hno))).
Qed.

(** ** When [Generate] enters a record, again *)

(** X1. From a state whose maps agree, [Generate] for [d] leaves [d] with a
    record exactly when one of its [MaxIter] turns (1000 when [MaxIter] was
    zero) renders a string that is not the key of a record younger than
    [Expire] in the state its loop runs over.  The first such turn is the
    last rendering of the call; its candidate is the returned key, and
    both maps then hold, under that key and under [d], a record with [d],
    the key and the clock reading of that turn.  When every turn meets a
    live record, the call leaves the state its loop started over, in which
    [d] has no record. *)
Theorem Generate_enters_iff p d w :
  Inv p →
  let g := Generate p d w in
  let q := before_loop p d in
  let turns := N.to_nat (MaxIter (defaults p)) in
  (is_Some (devices (g_pairs g) !! d) ↔
   ∃ j, (j < turns)%nat ∧ live w q j = false) ∧
  (g_break g = true ↔ is_Some (devices (g_pairs g) !! d)) ∧
  (∀ j, (j < turns)%nat → live w q j = false →
     (∀ j', (j' < j)%nat → live w q j' = true) →
     let r := mkKeyInfo d (candidate w q j) (clockNow w j) in
     g_key g = candidate w q j ∧ g_renders g = S j ∧
     keys (g_pairs g) !! candidate w q j = Some r ∧
     devices (g_pairs g) !! d = Some r) ∧
  ((∀ j, (j < turns)%nat → live w q j = true) →
   g_pairs g = q ∧ devices (g_pairs g) !! d = None ∧ g_renders g = turns).
Proof.
  intros HI g q turns. subst g q turns.
  assert (Hqd : devices (before_loop p d) !! d = None)
    by by apply supersede_device, Inv_defaults.
  assert (Hflag : g_break (Generate p d w) = true ↔
                  is_Some (devices (g_pairs (Generate p d w)) !! d)).
  { split.
    - intros Hb. destruct (Generate_break_record p d w HI Hb) as [_ Hd].
      by eexists.
    - intros [r Hr]. destruct (g_break (Generate p d w)) eqn:Hb; [done|].
      destruct (Generate_exhausted _ _ _ Hb) as (_ & _ & _ & Hp).
      rewrite Hp in Hr. congruence. }
  assert (Hsome : g_break (Generate p d w) = true ↔
                  ∃ j, (j < N.to_nat (MaxIter (defaults p)))%nat ∧
                       live w (before_loop p d) j = false).
  { split.
    - intros Hb.
      destruct (Generate_break _ _ _ Hb) as (j & Hj & _ & Hfree & _).
      by exists j.
    - intros (j & Hj & Hfree).
      destruct (g_break (Generate p d w)) eqn:Hb; [done|].
      destruct (Generate_exhausted _ _ _ Hb) as (Hall & _).
      rewrite (Hall j Hj) in Hfree. done. }
  split; [by rewrite <- Hflag|]. split; [done|]. split.
  - intros j Hj Hfree Hbefore r.
    assert (Hb : g_break (Generate p d w) = true)
      by (apply Hsome; by exists j).
    destruct (Generate_break _ _ _ Hb)
      as (j0 & _ & Hbefore0 & Hfree0 & Hk & Hn & _).
    assert (j0 = j) as ->.
    { destruct (Nat.lt_trichotomy j0 j) as [Hlt|[Heq|Hgt]]; [|done|].
      - rewrite (Hbefore j0 Hlt) in Hfree0. done.
      - rewrite (Hbefore0 j Hgt) in Hfree. done. }
    destruct (Generate_break_record p d w HI Hb) as [Hkeys Hdev].
    rewrite Hn, Hk in Hkeys, Hdev. simpl in Hkeys, Hdev.
    by rewrite Hk.
  - intros Hall.
    destruct (g_break (Generate p d w)) eqn:Hb.
    + destruct (Generate_break _ _ _ Hb) as (j & Hj & _ & Hfree & _).
      rewrite (Hall j Hj) in Hfree. done.
    + destruct (Generate_exhausted _ _ _ Hb) as (_ & _ & Hn & Hp).
      by rewrite Hp.
Qed.

(** ** A negative [Expire], again *)

(** X9. From a state whose maps agree, with a negative [Expire] and a
    clock that does not run behind the times in the records, [Generate]
    never runs out of turns.  The first string rendered is entered: after
    that one rendering both maps hold the record for [d] under it, and a
    record another device had under that key is gone from both maps. *)
Theorem negative_Expire_first_turn p d w :
  Inv p →
  (Expire p < 0)%Z →
  (∀ k r, keys p !! k = Some r → (Time r ≤ clockSince w 0)%Z) →
  let g := Generate p d w in
  let r := mkKeyInfo d (g_key g) (clockNow w 0) in
  g_renders g = 1%nat ∧
  g_key g = DictGenerate w 0 (Dict (g_pairs g)) (Length (g_pairs g)) ∧
  keys (g_pairs g) !! g_key g = Some r ∧
  devices (g_pairs g) !! d = Some r ∧
  ∀ r0, keys p !! g_key g = Some r0 → DeviceID r0 ≠ d →
    devices (g_pairs g) !! DeviceID r0 = None ∧
    keys (g_pairs g) !! g_key g ≠ Some r0.
Proof.
  intros HI Hneg Hclock g r. subst r g.
  assert (Hfree : live w (before_loop p d) 0 = false).
  { unfold live.
    destruct (keys (before_loop p d) !! candidate w (before_loop p d) 0)
      as [r|] eqn:Hr; [|done].
    apply supersede_keys_Some in Hr. simpl in Hr.
    pose proof (Since_nonneg _ _ (Hclock _ _ Hr)).
    destruct (supersede_config d (defaults p)) as (_ & _ & -> & _). simpl.
    destruct (Z.eqb_spec (Expire p) 0); [lia|].
    apply Z.ltb_ge. lia. }
  destruct (Generate_first_turn p d w Hfree) as (Hb & Hn & Hk).
  destruct (Generate_break_record p d w HI Hb) as [Hkeys Hdev].
  rewrite Hn in Hkeys, Hdev. simpl in Hkeys, Hdev.
  split; [done|]. split; [|split; [done|split; [done|]]].
  - rewrite Hk. unfold candidate.
    destruct (Generate_config p d w) as (-> & -> & _).
    by destruct (supersede_config d (defaults p)) as (-> & -> & _).
  - intros r0 Hr0 Hne.
    assert (Hq : keys (before_loop p d) !! g_key (Generate p d w) = Some r0)
      by by apply supersede_keeps; [apply Inv_defaults|..].
    split.
    + destruct (Generate_break _ _ _ Hb) as (j & _ & _ & _ & Hkey & _ & Hp).
      rewrite Hp. simpl. rewrite lookup_insert_ne by done.
      rewrite <- Hkey. unfold reclaim. rewrite Hq. apply lookup_delete_eq.
    + rewrite Hkeys. intros [= <-]. by apply Hne.
Qed.

(** ** Distinct devices, distinct keys *)

(** When no record is as old as [Expire], the key a call enters was
    free: a turn that meets a record goes on to the next. *)
Lemma none_expired_no_expiry calls : ∀ p,
  none_expired DictAlfa calls p → no_expiry DictAlfa calls p.
Proof.
  induction calls as [|[d w] calls IH]; intros p Hno; [done|].
  destruct Hno as [Hyoung Hno]. simpl. split; [|by apply IH].
  intros Hb.
  destruct (Generate_break _ _ _ Hb) as (j & _ & _ & Hfree & -> & _).
  unfold live in Hfree.
  destruct (keys (before_loop p d) !! candidate w (before_loop p d) j)
    as [r|] eqn:Hr; [|done].
  apply Z.ltb_ge in Hfree.
  apply supersede_keys_Some in Hr. simpl in Hr.
  specialize (Hyoung j _ _ Hr).
  destruct (supersede_config d (defaults p)) as (_ & _ & HE & _).
  rewrite HE in Hfree. lia.
Qed.

(** A record whose device does not ask stays through the calls. *)
Lemma issued_kept calls : ∀ p k r,
  Inv p → keys p !! k = Some r → DeviceID r ∉ calls.*1 →
  no_expiry DictAlfa calls p →
  keys (run (generate_ops calls) p) !! k = Some r.
Proof.
  induction calls as [|[d w] calls IH]; intros p k r HI Hr Hnot Hno; [done|].
  simpl in Hnot, Hno. destruct Hno as [Hfree Hno].
  apply not_elem_of_cons in Hnot as [Hne Hnot].
  destruct (Generate_keeps p d w k r HI Hr Hne Hfree) as [Hkeep _].
  simpl. by apply IH; [apply Inv_Generate|..].
Qed.

(** X11. From a state whose maps agree, let [Generate] be called for
    pairwise distinct devices while no record of the store is as old as
    [Expire].  Then the keys of the calls that entered a record are
    pairwise distinct, and after the last call each of these keys is
    still in the store with the record of the device it was entered
    for. *)
Theorem distinct_devices_distinct_keys calls : ∀ p,
  Inv p → NoDup calls.*1 → none_expired DictAlfa calls p →
  NoDup (issued DictAlfa calls p).*2 ∧
  ∀ d k, (d, k) ∈ issued DictAlfa calls p →
    ∃ r, keys (run (generate_ops calls) p) !! k = Some r ∧
         devices (run (generate_ops calls) p) !! d = Some r ∧
         DeviceID r = d ∧ Key r = k.
Proof.
  intros p HI Hnd Hyoung.
  pose proof (none_expired_no_expiry calls p Hyoung) as Hno.
  split; [by apply issued_NoDup|].
  clear Hyoung. revert p HI Hnd Hno.
  induction calls as [|[d0 w] calls IH]; intros p HI Hnd Hno d k Hin.
  - by apply elem_of_nil in Hin.
  - simpl in Hnd, Hno, Hin. destruct Hno as [Hfree Hno].
    apply NoDup_cons in Hnd as [Hnot Hnd].
    assert (HI1 : Inv (g_pairs (Generate p d0 w))) by by apply Inv_Generate.
    apply elem_of_app in Hin as [Hhead|Htail].
    + destruct (g_break (Generate p d0 w)) eqn:Hb;
        [|by apply elem_of_nil in Hhead].
      apply list_elem_of_singleton in Hhead as [= -> ->].
      destruct (Generate_break_record p d0 w HI Hb) as [Hk _].
      pose proof (issued_kept calls _ _ _ HI1 Hk Hnot Hno) as Hkept.
      eexists. split; [exact Hkept|]. simpl. split; [|done].
      by destruct (inv_keys _ (Inv_run (generate_ops calls) _ HI1) _ _ Hkept).
    + by apply (IH _ HI1 Hnd Hno).
Qed.

End Properties.

(** * The scenario *)

Section ScenarioFacts.

Import Scenario.

Lemma Inv_zero : Inv zero.
Proof. apply Inv_newPairs. Qed.

Lemma Inv_first : Inv (g_pairs first).
Proof. apply Inv_Generate, Inv_zero. Qed.

(** C1. With the renderer stuck on ["AAAAAA"] and that key entered for
    ["d1"] a nanosecond ago, [Generate] for ["d2"] takes all 1000 turns,
    every one of them meeting the live record, enters nothing, and
    returns ["AAAAAA"], the candidate of the last turn, not the empty
    string. *)
Theorem Generate_exhausted_returns_candidate :
  g_break second = false ∧
  g_renders second = 1000%nat ∧
  g_pairs second = g_pairs first ∧
  g_key second = "AAAAAA" ∧
  g_key second ≠ "".
Proof. repeat split; by vm_compute. Qed.

(** C2. Two calls for the distinct devices ["d1"] and ["d2"], a nanosecond
    apart and with no call of [GetDeviceID] between them, both return
    ["AAAAAA"]; after them the key is still the live key of ["d1"] and
    ["d2"] has no record. *)
Theorem Generate_returns_live_key :
  "d1" ≠ "d2" ∧
  g_key first = "AAAAAA" ∧ g_key second = "AAAAAA" ∧
  g_key first ≠ "" ∧
  keys (g_pairs second) !! "AAAAAA" = Some (mkKeyInfo "d1" "AAAAAA" 0%Z) ∧
  devices (g_pairs second) !! "d2" = None ∧
  (Since 1%Z 0%Z < Expire (g_pairs second))%Z.
Proof. repeat split; by vm_compute. Qed.

(** C4 does not hold as stated: when the second call for ["d1"] renders the
    key of the first again, that key is entered again, and redeeming the
    first returned key gives ["d1"], not the empty string. *)
Lemma same_key_entered_again :
  g_break first = true ∧ g_break again = true ∧
  g_key first = "AAAAAA" ∧ g_key again = "AAAAAA" ∧
  snd (GetDeviceID (g_pairs again) (g_key first) 2%Z) = "d1" ∧
  snd (GetDeviceID (g_pairs again) (g_key first) 2%Z) ≠ "".
Proof. repeat split; by vm_compute. Qed.

(** The key of the first call, redeemed thirty minutes after it was
    entered. *)
Lemma GetDeviceID_expired_witness :
  Inv (g_pairs first) ∧
  keys (g_pairs first) !! "AAAAAA" = Some (mkKeyInfo "d1" "AAAAAA" 0%Z) ∧
  ¬ (Since late (Time (mkKeyInfo "d1" "AAAAAA" 0%Z)) < Expire (g_pairs first))%Z ∧
  snd (GetDeviceID (g_pairs first) "AAAAAA" late) = "" ∧
  keys (fst (GetDeviceID (g_pairs first) "AAAAAA" late)) !! "AAAAAA" = None.
Proof.
  assert (Hr : keys (g_pairs first) !! "AAAAAA"
               = Some (mkKeyInfo "d1" "AAAAAA" 0%Z)) by reflexivity.
  assert (Hold : ¬ (Since late (Time (mkKeyInfo "d1" "AAAAAA" 0%Z))
                      < Expire (g_pairs first))%Z)
    by (vm_compute; discriminate).
  split; [exact Inv_first|]. split; [exact Hr|]. split; [exact Hold|].
  destruct (GetDeviceID_expired (g_pairs first) "AAAAAA" _ late
              Inv_first Hr Hold) as (Hs & _ & _ & Hk & _).
  split; [exact Hs|exact Hk].
Defined.

(** A key nobody was given. *)
Lemma GetDeviceID_unknown_witness :
  keys (g_pairs first) !! "nonexistent" = None ∧
  snd (GetDeviceID (g_pairs first) "nonexistent" 2%Z) = "" ∧
  fst (GetDeviceID (g_pairs first) "nonexistent" 2%Z) = g_pairs first.
Proof.
  assert (Hnone : keys (g_pairs first) !! "nonexistent" = None)
    by reflexivity.
  split; [exact Hnone|].
  destruct (GetDeviceID_unknown (g_pairs first) "nonexistent" 2%Z Hnone)
    as (Hs & Hp & _).
  split; [exact Hs|exact Hp].
Defined.

(** ["d1"] asks twice and is given ["AAAAAA"], then ["BBBBBB"]. *)
Lemma Generate_twice_witness :
  Inv zero ∧ g_break first = true ∧
  g_key renewed ≠ g_key first ∧
  snd (GetDeviceID (g_pairs renewed) (g_key first) 2%Z) = "" ∧
  snd (GetDeviceID (g_pairs renewed) (g_key renewed) 2%Z) = "d1".
Proof.
  assert (Hb : g_break first = true) by reflexivity.
  assert (Hne : g_key renewed ≠ g_key first) by (vm_compute; discriminate).
  split; [exact Inv_zero|]. split; [exact Hb|]. split; [exact Hne|].
  destruct (Generate_twice alphabet zero "d1" (stuck 0%Z) (other 1%Z)
              Inv_zero Hb) as (_ & _ & Hfirst & Hsecond & _).
  split.
  - exact (Hfirst (or_intror Hne) 2%Z).
  - apply Hsecond; reflexivity.
Defined.


(** ** Instances of the further properties *)

Lemma Inv_both : Inv (g_pairs both).
Proof. apply Inv_Generate, Inv_first. Qed.

(** ["d2"] is given the key of ["d1"] thirty minutes later. *)
Lemma Generate_reclaims_witness :
  Inv (g_pairs first) ∧ g_break reclaimed = true ∧
  keys (g_pairs first) !! g_key reclaimed
    = Some (mkKeyInfo "d1" "AAAAAA" 0%Z) ∧
  "d1" ≠ "d2" ∧
  devices (g_pairs reclaimed) !! "d1" = None ∧
  snd (GetDeviceID (g_pairs reclaimed) (g_key reclaimed) (late + 1)%Z) = "d2".
Proof.
  assert (Hb : g_break reclaimed = true) by reflexivity.
  assert (Hr : keys (g_pairs first) !! g_key reclaimed
               = Some (mkKeyInfo "d1" "AAAAAA" 0%Z)) by reflexivity.
  assert (Hne : "d1" ≠ "d2") by discriminate.
  split; [exact Inv_first|]. split; [exact Hb|]. split; [exact Hr|].
  split; [exact Hne|].
  destruct (Generate_reclaims alphabet (g_pairs first) "d2" (stuck late)
              (mkKeyInfo "d1" "AAAAAA" 0%Z) (late + 1)%Z
              Inv_first Hb Hr Hne eq_refl) as (_ & Hd & _ & Hredeem).
  split; [exact Hd|exact Hredeem].
Defined.

(** The record of ["d1"] while ["d2"] is given ["BBBBBB"]. *)
Lemma Generate_frame_witness :
  Inv (g_pairs first) ∧
  keys (g_pairs first) !! "AAAAAA" = Some (mkKeyInfo "d1" "AAAAAA" 0%Z) ∧
  "d1" ≠ "d2" ∧ "AAAAAA" ≠ g_key both ∧
  keys (g_pairs both) !! "AAAAAA" = Some (mkKeyInfo "d1" "AAAAAA" 0%Z) ∧
  devices (g_pairs both) !! "d1" = Some (mkKeyInfo "d1" "AAAAAA" 0%Z).
Proof.
  assert (Hr : keys (g_pairs first) !! "AAAAAA"
               = Some (mkKeyInfo "d1" "AAAAAA" 0%Z)) by reflexivity.
  assert (Hne : "d1" ≠ "d2") by discriminate.
  assert (Hk : "AAAAAA" ≠ g_key both) by (vm_compute; discriminate).
  split; [exact Inv_first|]. split; [exact Hr|]. split; [exact Hne|].
  split; [exact Hk|].
  exact (Generate_frame alphabet (g_pairs first) "d2" (other 1%Z)
           "AAAAAA" (mkKeyInfo "d1" "AAAAAA" 0%Z) Inv_first Hr Hne Hk).
Defined.

(** The key of ["d1"] redeemed after the one call that entered it. *)
Lemma GetDeviceID_names_asked_witness :
  snd (GetDeviceID (run alphabet [OpGenerate "d1" (stuck 0%Z)] zero)
         "AAAAAA" 2%Z) ≠ "" ∧
  snd (GetDeviceID (run alphabet [OpGenerate "d1" (stuck 0%Z)] zero)
         "AAAAAA" 2%Z) ∈ asked [OpGenerate "d1" (stuck 0%Z)].
Proof.
  assert (Hne : snd (GetDeviceID
                       (run alphabet [OpGenerate "d1" (stuck 0%Z)] zero)
                       "AAAAAA" 2%Z) ≠ "") by (vm_compute; discriminate).
  split; [exact Hne|].
  exact (GetDeviceID_names_asked alphabet "" 0%N 0%Z 0%N
           [OpGenerate "d1" (stuck 0%Z)] "AAAAAA" 2%Z Hne).
Defined.

(** ["d1"] asks again. *)
Lemma Generate_again_size_witness :
  Inv (g_pairs first) ∧ is_Some (devices (g_pairs first) !! "d1") ∧
  (size (keys (g_pairs renewed)) ≤ size (keys (g_pairs first)))%nat.
Proof.
  assert (Hd : is_Some (devices (g_pairs first) !! "d1"))
    by (eexists; reflexivity).
  split; [exact Inv_first|]. split; [exact Hd|].
  exact (proj1 (Generate_again_size alphabet (g_pairs first) "d1"
                  (other 1%Z) Inv_first Hd)).
Defined.

(** A key entered under an [Expire] of minus one nanosecond. *)
Lemma negative_Expire_never_redeems_witness :
  (Expire hasty < 0)%Z ∧
  (∀ r, keys (g_pairs hasty_first) !! "AAAAAA" = Some r → (Time r ≤ 1)%Z) ∧
  Expire (g_pairs hasty_first) = (-1)%Z ∧
  snd (GetDeviceID (g_pairs hasty_first) "AAAAAA" 1%Z) = "".
Proof.
  assert (Hneg : (Expire hasty < 0)%Z) by reflexivity.
  assert (Hclock : ∀ r, keys (g_pairs hasty_first) !! "AAAAAA" = Some r →
                        (Time r ≤ 1)%Z).
  { intros r Hr. vm_compute in Hr. injection Hr as <-.
    vm_compute. discriminate. }
  split; [exact Hneg|]. split; [exact Hclock|].
  exact (negative_Expire_never_redeems alphabet hasty "d1" (stuck 0%Z)
           "AAAAAA" 1%Z Hneg Hclock).
Defined.

(** The keys of ["d1"] and ["d2"] redeemed in both orders. *)
Lemma GetDeviceID_commute_witness :
  Inv (g_pairs both) ∧ "AAAAAA" ≠ "BBBBBB" ∧
  snd (GetDeviceID (g_pairs both) "AAAAAA" 2%Z)
  = snd (GetDeviceID (fst (GetDeviceID (g_pairs both) "BBBBBB" 3%Z))
           "AAAAAA" 2%Z) ∧
  fst (GetDeviceID (fst (GetDeviceID (g_pairs both) "AAAAAA" 2%Z))
         "BBBBBB" 3%Z)
  = fst (GetDeviceID (fst (GetDeviceID (g_pairs both) "BBBBBB" 3%Z))
           "AAAAAA" 2%Z).
Proof.
  assert (Hne : "AAAAAA" ≠ "BBBBBB") by discriminate.
  split; [exact Inv_both|]. split; [exact Hne|].
  destruct (GetDeviceID_commute (g_pairs both) "AAAAAA" "BBBBBB" 2%Z 3%Z
              Inv_both Hne) as (Ha & _ & Hp).
  split; [exact Ha|exact Hp].
Defined.

(** ** Instances for the revised statements *)

Lemma Inv_hasty_first : Inv (g_pairs hasty_first).
Proof. apply Inv_Generate, Inv_newPairs. Qed.

(** C3 does not hold as stated: after the key of ["d1"] has been redeemed,
    ["d2"] asks, is rendered the same string and is entered under it; the
    next [GetDeviceID] of the key returns ["d2"], not the empty string. *)
Lemma redeemed_key_entered_again :
  g_break first = true ∧ g_key first = "AAAAAA" ∧
  (Since 2%Z 0%Z < Expire (g_pairs first))%Z ∧
  GetDeviceID (g_pairs first) (g_key first) 2%Z = (redeemed, "d1") ∧
  g_key reentered = g_key first ∧
  snd (GetDeviceID (g_pairs reentered) (g_key first) 4%Z) = "d2" ∧
  snd (GetDeviceID (g_pairs reentered) (g_key first) 4%Z) ≠ "".
Proof. repeat split; by vm_compute. Qed.

(** The key of ["d1"], redeemed after ["d2"] was given ["BBBBBB"] and an
    unknown key was asked for, and asked for again after the key of
    ["d2"] was redeemed. *)
Lemma GetDeviceID_single_use_witness :
  Inv zero ∧ g_break first = true ∧
  undisturbed alphabet "d1" (g_key first) bystanders (g_pairs first) ∧
  (Since 2%Z (clockNow (stuck 0%Z) (Nat.pred (g_renders first)))
     < Expire (g_pairs first))%Z ∧
  snd (GetDeviceID (run alphabet bystanders (g_pairs first))
         (g_key first) 2%Z) = "d1" ∧
  snd (GetDeviceID
         (run alphabet [OpGetDeviceID "BBBBBB" 3%Z]
            (fst (GetDeviceID (run alphabet bystanders (g_pairs first))
                    (g_key first) 2%Z)))
         (g_key first) 4%Z) = "".
Proof.
  assert (Hb : g_break first = true) by reflexivity.
  assert (Hun : undisturbed alphabet "d1" (g_key first) bystanders
                  (g_pairs first)).
  { split; [split; [discriminate|]|split; [discriminate|exact I]].
    intros _. vm_compute. discriminate. }
  assert (Hlive : (Since 2%Z (clockNow (stuck 0%Z) (Nat.pred (g_renders first)))
                     < Expire (g_pairs first))%Z) by reflexivity.
  split; [exact Inv_zero|]. split; [exact Hb|]. split; [exact Hun|].
  split; [exact Hlive|].
  destruct (GetDeviceID_single_use alphabet zero "d1" (stuck 0%Z) bystanders
              2%Z Inv_zero Hb Hun Hlive) as (Hd & _ & _ & Hnext).
  split; [exact Hd|].
  exact (Hnext [OpGetDeviceID "BBBBBB" 3%Z] 4%Z (conj I I)).
Defined.

(** ["d2"] asks while the stuck renderer only gives the live key of
    ["d1"]. *)
Lemma Generate_enters_iff_witness :
  Inv (g_pairs first) ∧
  (g_break second = true ↔ is_Some (devices (g_pairs second) !! "d2")) ∧
  ((∀ j, (j < N.to_nat (MaxIter (defaults alphabet (g_pairs first))))%nat →
      live (stuck 1%Z)
        (supersede "d2" (defaults alphabet (g_pairs first))) j = true) →
   devices (g_pairs second) !! "d2" = None).
Proof.
  split; [exact Inv_first|].
  destruct (Generate_enters_iff alphabet (g_pairs first) "d2" (stuck 1%Z)
              Inv_first) as (_ & Hflag & _ & Hall).
  split; [exact Hflag|].
  intros H. exact (proj1 (proj2 (Hall H))).
Defined.

(** ["d2"] asks a nanosecond after ["d1"] under an [Expire] of minus one
    nanosecond and takes the key of ["d1"]. *)
Lemma negative_Expire_first_turn_witness :
  Inv (g_pairs hasty_first) ∧
  (Expire (g_pairs hasty_first) < 0)%Z ∧
  (∀ k r, keys (g_pairs hasty_first) !! k = Some r →
          (Time r ≤ clockSince (stuck 1%Z) 0)%Z) ∧
  g_renders hasty_second = 1%nat ∧
  devices (g_pairs hasty_second) !! "d2"
    = Some (mkKeyInfo "d2" (g_key hasty_second) 1%Z) ∧
  devices (g_pairs hasty_second) !! "d1" = None.
Proof.
  assert (Hneg : (Expire (g_pairs hasty_first) < 0)%Z) by reflexivity.
  assert (Hclock : ∀ k r, keys (g_pairs hasty_first) !! k = Some r →
                          (Time r ≤ clockSince (stuck 1%Z) 0)%Z).
  { assert (Hkeys : keys (g_pairs hasty_first)
                    = {[ "AAAAAA" := mkKeyInfo "d1" "AAAAAA" 0%Z ]})
      by reflexivity.
    intros k r. rewrite Hkeys. intros [_ <-]%lookup_singleton_Some.
    vm_compute. discriminate. }
  split; [exact Inv_hasty_first|]. split; [exact Hneg|].
  split; [exact Hclock|].
  destruct (negative_Expire_first_turn alphabet (g_pairs hasty_first) "d2"
              (stuck 1%Z) Inv_hasty_first Hneg Hclock)
    as (Hn & _ & _ & Hd & Hevict).
  split; [exact Hn|]. split; [exact Hd|].
  assert (Hr0 : keys (g_pairs hasty_first) !! g_key hasty_second
                = Some (mkKeyInfo "d1" "AAAAAA" 0%Z)) by reflexivity.
  assert (Hne : DeviceID (mkKeyInfo "d1" "AAAAAA" 0%Z) ≠ "d2")
    by discriminate.
  exact (proj1 (Hevict _ Hr0 Hne)).
Defined.

(** ["d1"] is given ["AAAAAA"]; ["d2"] is rendered it too, goes on to the
    next turn and is given ["BBBBBB"]. *)
Lemma distinct_devices_distinct_keys_witness :
  Inv zero ∧ NoDup two_calls.*1 ∧ none_expired alphabet two_calls zero ∧
  issued alphabet two_calls zero = [("d1", "AAAAAA"); ("d2", "BBBBBB")] ∧
  NoDup (issued alphabet two_calls zero).*2.
Proof.
  assert (Hnd : NoDup two_calls.*1).
  { simpl. apply NoDup_cons. split.
    - intros [Heq|Hin]%elem_of_cons; [discriminate|].
      by apply elem_of_nil in Hin.
    - apply NoDup_singleton. }
  assert (Hyoung : none_expired alphabet two_calls zero).
  { split.
    - intros i k r Hr. simpl in Hr. by rewrite lookup_empty in Hr.
    - split; [|exact I].
      assert (Hkeys : keys (g_pairs (Generate alphabet zero "d1" (stuck 0%Z)))
                      = {[ "AAAAAA" := mkKeyInfo "d1" "AAAAAA" 0%Z ]})
        by reflexivity.
      intros i k r. rewrite Hkeys. intros [_ <-]%lookup_singleton_Some.
      reflexivity. }
  split; [exact Inv_zero|]. split; [exact Hnd|]. split; [exact Hyoung|].
  split; [reflexivity|].
  exact (proj1 (distinct_devices_distinct_keys alphabet two_calls zero
                  Inv_zero Hnd Hyoung)).
Defined.

End ScenarioFacts.
